(** * hotel-mm: proximity search, order pricing and the order status routes

    A shallow embedding of the back end's core controllers
    (backend/src/controllers, backend/src/utils/geolocation.js and
    backend/src/middleware/validation.js), with the properties stated of
    them.

    Numbers.  JavaScript numbers are IEEE 754 doubles.
    - The order controller only adds, multiplies and compares amounts, all
      of which IEEE 754 fixes bit for bit, so [OrderController] computes with Rocq's
      primitive binary64 floats and every definition there evaluates.
    - The geolocation helpers go through [Math.sin], [Math.cos],
      [Math.atan2] and [Math.asin], whose results ECMAScript leaves to the
      implementation.  They are embedded twice.  [Geolocation] reads a
      number as the real it denotes ([Math.round x] is [Zfloor (x + 1/2)],
      [Math.ceil] is [Zceil], comparisons are decided by [Rle_dec] and
      [Rlt_dec]); [HotelController] is stated over it: its theorems do
      not depend on what the distance function returns, and its examples
      sit at distances of a few decimetres, away from every rounding
      boundary.  [GeolocationDoubles] is the distance on
      binary64 floats, with the engine's [Math.sin], [Math.cos] and
      [Math.atan2] as parameters: rounding makes it leave the reals'
      function at nearly antipodal points, where it is not a number.

    Persistence.  A Prisma table is the list of its rows in storage order;
    a controller is a function from the state of the tables and the request
    to a response and the new state.  Exceptions raised by the database
    driver and the e-mail side effects are outside the model. *)

From Stdlib Require Import Reals Lra Lia ZArith List Bool String Ascii.
From Stdlib Require Import Sorting.Sorted Sorting.Permutation.
From Stdlib Require Floats.PrimFloat Floats.FloatAxioms.
Import ListNotations.

(* ================================================================= *)
(** ** utils/geolocation.js, in exact arithmetic *)

Module Geolocation.

Local Open Scope R_scope.

(** [degrees * (Math.PI / 180)] *)
Definition toRad (degrees : R) : R := degrees * (PI / 180).

(** [radians * (180 / Math.PI)] *)
Definition toDegrees (radians : R) : R := radians * (180 / PI).

(** [Math.atan2 y x], the angle of the point [(x, y)] in [(-PI, PI]]. *)
Definition atan2 (y x : R) : R :=
  if Rlt_dec 0 x then atan (y / x)
  else if Rlt_dec x 0 then
    (if Rle_dec 0 y then atan (y / x) + PI else atan (y / x) - PI)
  else if Rlt_dec 0 y then PI / 2
  else if Rlt_dec y 0 then - (PI / 2)
  else 0.

(** The haversine term [a] of [calculateDistance]. *)
Definition haversine_a (lat1 lon1 lat2 lon2 : R) : R :=
  let dLat := toRad (lat2 - lat1) in
  let dLon := toRad (lon2 - lon1) in
  sin (dLat / 2) * sin (dLat / 2) +
  cos (toRad lat1) * cos (toRad lat2) *
  sin (dLon / 2) * sin (dLon / 2).

(** [calculateDistance(lat1, lon1, lat2, lon2)], in metres, as the
    formula reads in exact arithmetic.  The program computes it in doubles,
    [GeolocationDoubles.calculateDistance]; the two part where rounding
    takes the haversine term above 1. *)
Definition calculateDistance (lat1 lon1 lat2 lon2 : R) : R :=
  let R_km := 6371 in
  let a := haversine_a lat1 lon1 lat2 lon2 in
  let c := 2 * atan2 (sqrt a) (sqrt (1 - a)) in
  let distanceKm := R_km * c in
  distanceKm * 1000.

(** [getBoundingBox(lat, lng, radius)], in exact arithmetic.  The doubles
    round each bound, so the program's box can differ from this one in the
    last place of a bound; and at a pole [cos latRad] is 0: the quotient is
    then 0 here, where the doubles give an infinity and [Math.asin] answers
    NaN, a box no row falls in.  What is proved of the search is proved of
    the rows inside the box the search computes, whichever they are. *)
Record bbox : Type := mkBbox
  { minLat : R; maxLat : R; minLng : R; maxLng : R }.

Definition getBoundingBox (lat lng radius : R) : bbox :=
  let earthRadius := 6371000 in
  let latRad := toRad lat in
  let lngRad := toRad lng in
  let angularDistance := radius / earthRadius in
  let minLat := latRad - angularDistance in
  let maxLat := latRad + angularDistance in
  let deltaLng := asin (sin angularDistance / cos latRad) in
  let minLng := lngRad - deltaLng in
  let maxLng := lngRad + deltaLng in
  {| minLat := toDegrees minLat;
     maxLat := toDegrees maxLat;
     minLng := toDegrees minLng;
     maxLng := toDegrees maxLng |}.

(** *** Facts about the haversine distance *)

Lemma toRad_0 : toRad 0 = 0.
Proof. unfold toRad. lra. Qed.

Lemma toRad_opp (x : R) : toRad (- x) = - toRad x.
Proof. unfold toRad. lra. Qed.

Lemma sin_half_sq_opp (x : R) :
  sin (- x / 2) * sin (- x / 2) = sin (x / 2) * sin (x / 2).
Proof.
  replace (- x / 2) with (- (x / 2)) by lra.
  rewrite sin_neg. lra.
Qed.

Lemma haversine_a_sym (lat1 lon1 lat2 lon2 : R) :
  haversine_a lat1 lon1 lat2 lon2 = haversine_a lat2 lon2 lat1 lon1.
Proof.
  unfold haversine_a; cbv zeta.
  replace (lat2 - lat1) with (- (lat1 - lat2)) by lra.
  replace (lon2 - lon1) with (- (lon1 - lon2)) by lra.
  rewrite !toRad_opp, !Rmult_assoc, !sin_half_sq_opp.
  ring.
Qed.

Lemma haversine_a_refl (lat lon : R) : haversine_a lat lon lat lon = 0.
Proof.
  unfold haversine_a; cbv zeta.
  replace (lat - lat) with 0 by lra.
  replace (lon - lon) with 0 by lra.
  rewrite toRad_0.
  replace (0 / 2) with 0 by lra.
  rewrite sin_0. lra.
Qed.


Lemma atan2_0_1 : atan2 0 1 = 0.
Proof.
  unfold atan2. destruct (Rlt_dec 0 1) as [_ | H]; [|lra].
  replace (0 / 1) with 0 by lra. apply atan_0.
Qed.


End Geolocation.

(* ================================================================= *)
(** ** utils/geolocation.js: the distance in doubles *)

Module GeolocationDoubles.

Import PrimFloat.
Local Open Scope float_scope.

(** [Math.PI], the double nearest to the number. *)
Definition Math_PI : float := 0x1.921fb54442d18p+1.

(** [degrees * (Math.PI / 180)] *)
Definition toRad (degrees : float) : float := degrees * (Math_PI / 180).

(** A sine and a cosine that have, at the arguments the coordinates
    (8, 0) and (-8, 180) lead to, the doubles nearest to the exact values,
    and that are not a number where they were not sampled; with them, an
    arc tangent that was sampled nowhere, the example reaching it with a
    NaN only.  They stand in for the engine's library at those arguments
    and nowhere else. *)
Definition sampled_sin (x : float) : float :=
  if x =? -0x1.1df46a2529d39p-3 then -0x1.1d06c968d9e19p-3
  else if x =? 0x1.921fb54442d18p+0 then 1
  else nan.

Definition sampled_cos (x : float) : float :=
  if abs x =? 0x1.1df46a2529d39p-3 then 0x1.fb046a930947ap-1 else nan.

Definition sampled_atan2 (y x : float) : float := nan.

Section Engine.

(** ECMAScript leaves the values of [Math.sin], [Math.cos] and
    [Math.atan2] to the engine; they are parameters of the model.  The
    arithmetic is IEEE 754's, and so is [Math.sqrt], of which the example
    only uses that the root of a negative number is not a number. *)
Variable Math_sin : float -> float.
Variable Math_cos : float -> float.
Variable Math_atan2 : float -> float -> float.

(** The haversine term [a] of [calculateDistance]. *)
Definition haversine_a (lat1 lon1 lat2 lon2 : float) : float :=
  let dLat := toRad (lat2 - lat1) in
  let dLon := toRad (lon2 - lon1) in
  Math_sin (dLat / 2) * Math_sin (dLat / 2) +
  Math_cos (toRad lat1) * Math_cos (toRad lat2) *
  Math_sin (dLon / 2) * Math_sin (dLon / 2).

(** [calculateDistance(lat1, lon1, lat2, lon2)], in metres. *)
Definition calculateDistance (lat1 lon1 lat2 lon2 : float) : float :=
  let R := 6371 in
  let a := haversine_a lat1 lon1 lat2 lon2 in
  let c := 2 * Math_atan2 (sqrt a) (sqrt (1 - a)) in
  let distanceKm := R * c in
  distanceKm * 1000.

(** What the example asks of the engine: the sine of -8 degrees and of a
    right angle and the cosine of 8 and of -8 degrees are the doubles
    nearest to the exact values (-0.13917310096006544, 1 and
    0.9902680687415704), and the arc tangent of a NaN is NaN, as the
    language requires. *)
Hypothesis sin_minus_8_degrees :
  Math_sin (-0x1.1df46a2529d39p-3) = -0x1.1d06c968d9e19p-3.
Hypothesis sin_right_angle : Math_sin 0x1.921fb54442d18p+0 = 1.
Hypothesis cos_8_degrees : Math_cos 0x1.1df46a2529d39p-3 = 0x1.fb046a930947ap-1.
Hypothesis cos_minus_8_degrees :
  Math_cos (-0x1.1df46a2529d39p-3) = 0x1.fb046a930947ap-1.
Hypothesis atan2_of_NaN : forall y, Math_atan2 y nan = nan.

Lemma haversine_a_above_1 :
  haversine_a 8 0 (-8) 180 = 0x1.0000000000001p+0.
Proof.
  unfold haversine_a. vm_compute.
  rewrite sin_minus_8_degrees, cos_8_degrees, cos_minus_8_degrees, sin_right_angle.
  reflexivity.
Qed.

(** C8, at the failing input: from (8, 0) to its antipode (-8, 180) the
    haversine term comes out as 1.0000000000000002, one unit in the last
    place above 1, the square root of [1 - a] is not a number and neither
    is the distance.  The distance is then equal to no number, the
    distance in the other direction included, and it is not at least 0. *)
Theorem calculateDistance_antipodes_not_a_number :
  haversine_a 8 0 (-8) 180 = 0x1.0000000000001p+0 /\
  sqrt (1 - haversine_a 8 0 (-8) 180) = nan /\
  calculateDistance 8 0 (-8) 180 = nan /\
  (forall d, (calculateDistance 8 0 (-8) 180 =? d) = false) /\
  (0 <=? calculateDistance 8 0 (-8) 180) = false.
Proof.
  assert (Hd : calculateDistance 8 0 (-8) 180 = nan).
  { unfold calculateDistance. cbv zeta. rewrite haversine_a_above_1.
    replace (sqrt (1 - 0x1.0000000000001p+0)) with nan by reflexivity.
    rewrite atan2_of_NaN. reflexivity. }
  rewrite Hd, haversine_a_above_1. repeat split.
  intros d. rewrite FloatAxioms.eqb_spec. reflexivity.
Qed.

End Engine.

(** [calculateDistance_antipodes_not_a_number] with the sampled library. *)
Lemma calculateDistance_antipodes_not_a_number_witness :
  haversine_a sampled_sin sampled_cos 8 0 (-8) 180 = 0x1.0000000000001p+0 /\
  sqrt (1 - haversine_a sampled_sin sampled_cos 8 0 (-8) 180) = nan /\
  calculateDistance sampled_sin sampled_cos sampled_atan2 8 0 (-8) 180 = nan /\
  (forall d, (calculateDistance sampled_sin sampled_cos sampled_atan2
                8 0 (-8) 180 =? d) = false) /\
  (0 <=? calculateDistance sampled_sin sampled_cos sampled_atan2 8 0 (-8) 180)
    = false.
Proof.
  apply (calculateDistance_antipodes_not_a_number
           sampled_sin sampled_cos sampled_atan2);
    reflexivity.
Defined.

End GeolocationDoubles.

(* ================================================================= *)
(** ** controllers/hotelController.js: [getNearbyHotels] *)

Module HotelController.

Import Geolocation.
Local Open Scope R_scope.

(** The columns of a [Hotel] row that the search reads.  A coordinate is
    nullable in the table. *)
Record hotel : Type := mkHotel
  { id : Z;
    isActive : bool;
    latitude : option R;
    longitude : option R;
    deliveryRadius : R;
    cuisineType : option string }.

(** [req.query] after [parseFloat] and [parseInt]; [None] is an absent (or
    empty) parameter. *)
Record query : Type := mkQuery
  { q_latitude : option R;
    q_longitude : option R;
    q_radius : option Z;
    q_cuisine : option string }.

(** One element of the [hotels] array of the response: the row, spread,
    and the three computed properties. *)
Record nearby : Type := mkNearby
  { row : hotel;
    distance : Z;
    isDeliverable : bool;
    estimatedDeliveryTime : Z }.

Inductive response : Type :=
| Res400 (message : string)
| Res200 (count : nat) (userLocation : R * R) (searchRadius : Z)
         (hotels : list nearby).

Definition Rle_bool (x y : R) : bool := if Rle_dec x y then true else false.

(** [Math.round]: the nearest integer, halves upwards. *)
Definition Math_round (x : R) : Z := Zfloor (x + / 2).

(** [Math.ceil] *)
Definition Math_ceil (x : R) : Z := Zceil x.

(** [!v] for a nullable numeric column: [null] and [0] are falsy. *)
Definition falsy (v : option R) : bool :=
  match v with
  | None => true
  | Some x => if Req_dec_T x 0 then true else false
  end.

(** Modelled from the spec: the match of the cuisine filter, which the
    specification delegates to the catalog store.  The controller only
    names it, [cuisineType: { contains: cuisine, mode: 'insensitive' }];
    the matching itself is done by the database and is not in the
    repository.  It is read as the search for a substring once the ASCII
    letters of both sides are in lower case.  Nothing stated of the search
    depends on which rows this filter keeps. *)
Definition lower (c : ascii) : ascii :=
  let n := nat_of_ascii c in
  if (65 <=? n)%nat && (n <=? 90)%nat then ascii_of_nat (n + 32) else c.

(** Modelled from the spec: the lower-casing of the store's cuisine match,
    see [lower]. *)
Fixpoint lowercase (s : string) : string :=
  match s with
  | EmptyString => EmptyString
  | String c s' => String (lower c) (lowercase s')
  end.

(** Modelled from the spec: the substring search of the store's cuisine
    match, see [lower]. *)
Fixpoint contains (needle hay : string) : bool :=
  String.prefix needle hay ||
  match hay with
  | EmptyString => false
  | String _ rest => contains needle rest
  end.

(** Modelled from the spec: the store's cuisine match on a nullable
    column, see [lower]; a row without a cuisine type matches nothing. *)
Definition contains_insensitive (col : option string) (needle : string) : bool :=
  match col with
  | None => false
  | Some s => contains (lowercase needle) (lowercase s)
  end.

Definition in_range (lo hi : R) (v : option R) : bool :=
  match v with
  | None => false
  | Some x => Rle_bool lo x && Rle_bool x hi
  end.

(** The [where] clause handed to [prisma.hotel.findMany]. *)
Definition where_clause (box : bbox) (cuisine : option string) (h : hotel) : bool :=
  isActive h &&
  in_range (minLat box) (maxLat box) (latitude h) &&
  in_range (minLng box) (maxLng box) (longitude h) &&
  match cuisine with
  | None | Some EmptyString => true
  | Some c => contains_insensitive (cuisineType h) c
  end.

(** The callback of [hotels.map]. *)
Definition annotate (userLat userLon : R) (h : hotel) : option nearby :=
  if falsy (latitude h) || falsy (longitude h) then None
  else
    match latitude h, longitude h with
    | Some hlat, Some hlon =>
        let d := calculateDistance userLat userLon hlat hlon in
        Some {| row := h;
                distance := Math_round d;
                isDeliverable := Rle_bool d (deliveryRadius h);
                estimatedDeliveryTime := Math_round (d / 500 * 10 + 20) |}
    | _, _ => None
    end.

(** The callback of [.filter]: [hotel && hotel.isDeliverable]. *)
Definition keep (n : option nearby) : bool :=
  match n with
  | None => false
  | Some e => isDeliverable e
  end.

Fixpoint somes {A : Type} (l : list (option A)) : list A :=
  match l with
  | [] => []
  | Some a :: l' => a :: somes l'
  | None :: l' => somes l'
  end.

(** [Array.prototype.sort] with a comparator: a stable sort, which places
    [a] before [b] when [cmp a b < 0] and keeps their order when it is 0. *)
Section Sort.

Context {A : Type} (cmp : A -> A -> Z).

Fixpoint insert (x : A) (l : list A) : list A :=
  match l with
  | [] => [x]
  | y :: l' => if (cmp x y <=? 0)%Z then x :: l else y :: insert x l'
  end.

Definition sort (l : list A) : list A := fold_right insert [] l.

End Sort.

(** [(a, b) => a.distance - b.distance] *)
Definition by_distance (a b : nearby) : Z := (distance a - distance b)%Z.

Definition nearbyHotels (userLat userLon : R) (found : list hotel) : list nearby :=
  firstn 20
    (sort by_distance
       (somes (filter keep (map (annotate userLat userLon) found)))).

(** [getNearbyHotels], over the rows of the hotel table. *)
Definition getNearbyHotels (table : list hotel) (q : query) : response :=
  match q_latitude q, q_longitude q with
  | Some userLat, Some userLon =>
      let searchRadius := match q_radius q with Some r => r | None => 3000%Z end in
      let box := getBoundingBox userLat userLon (IZR searchRadius) in
      let found := filter (where_clause box (q_cuisine q)) table in
      let result := nearbyHotels userLat userLon found in
      Res200 (List.length result) (userLat, userLon) searchRadius result
  | _, _ => Res400 "Latitude and longitude are required"
  end.


(** The [hotels] array of a response; empty for an error response. *)
Definition hotels_of (r : response) : list nearby :=
  match r with
  | Res200 _ _ _ l => l
  | Res400 _ => []
  end.



(** *** A listing along one meridian

    Two hotels due north of the query point [(1, 1)], the first listed
    [PI / 10] metres away and the second [PI / 20] metres away. *)







(** *** The stable sort *)

Lemma insert_Forall {A : Type} (cmp : A -> A -> Z) (P : A -> Prop) x l :
  P x -> Forall P l -> Forall P (insert cmp x l).
Proof.
  intros Hx Hl. induction Hl as [| y l Hy Hl IH]; simpl.
  - constructor; auto.
  - destruct (cmp x y <=? 0)%Z; repeat constructor; auto.
Qed.

Lemma sort_Forall {A : Type} (cmp : A -> A -> Z) (P : A -> Prop) l :
  Forall P l -> Forall P (sort cmp l).
Proof.
  induction 1 as [| x l Hx Hl IH]; simpl.
  - constructor.
  - apply insert_Forall; assumption.
Qed.




Lemma firstn_Forall {A : Type} (P : A -> Prop) n l :
  Forall P l -> Forall P (firstn n l).
Proof.
  intros H. rewrite <- (firstn_skipn n l) in H. apply Forall_app in H. tauto.
Qed.

(** *** What the pipeline keeps *)

Lemma where_clause_active box cuisine h :
  where_clause box cuisine h = true -> isActive h = true.
Proof.
  unfold where_clause. intros H.
  repeat (apply andb_prop in H; destruct H as [H _]). exact H.
Qed.

Lemma annotate_Some userLat userLon h n :
  annotate userLat userLon h = Some n ->
  exists hlat hlon,
    latitude h = Some hlat /\ longitude h = Some hlon /\
    row n = h /\
    distance n = Math_round (calculateDistance userLat userLon hlat hlon) /\
    isDeliverable n =
      Rle_bool (calculateDistance userLat userLon hlat hlon) (deliveryRadius h) /\
    estimatedDeliveryTime n =
      Math_round (calculateDistance userLat userLon hlat hlon / 500 * 10 + 20).
Proof.
  unfold annotate.
  destruct (falsy (latitude h) || falsy (longitude h)); [discriminate|].
  destruct (latitude h) as [hlat|]; [|discriminate].
  destruct (longitude h) as [hlon|]; [|discriminate].
  intros [= <-]. exists hlat, hlon. simpl. auto 10.
Qed.

Lemma kept_spec userLat userLon found :
  Forall (fun n => In (row n) found /\
                   annotate userLat userLon (row n) = Some n /\
                   isDeliverable n = true)
         (somes (filter keep (map (annotate userLat userLon) found))).
Proof.
  induction found as [| h found IH]; simpl; [constructor|].
  assert (IH' : Forall (fun n => In (row n) (h :: found) /\
                   annotate userLat userLon (row n) = Some n /\
                   isDeliverable n = true)
         (somes (filter keep (map (annotate userLat userLon) found)))).
  { eapply Forall_impl; [|exact IH]. simpl. intros n (H1 & H2 & H3). auto. }
  destruct (annotate userLat userLon h) as [n|] eqn:E; simpl; [|exact IH'].
  destruct (isDeliverable n) eqn:D; simpl; [|exact IH'].
  constructor; [|exact IH'].
  destruct (annotate_Some _ _ _ _ E) as (x & y & _ & _ & Hrow & _).
  rewrite Hrow. simpl. auto.
Qed.

Lemma nearbyHotels_spec userLat userLon found :
  Forall (fun n => In (row n) found /\
                   annotate userLat userLon (row n) = Some n /\
                   isDeliverable n = true)
         (nearbyHotels userLat userLon found).
Proof.
  unfold nearbyHotels. apply firstn_Forall, sort_Forall, kept_spec.
Qed.






Lemma Rle_bool_intro x y : x <= y -> Rle_bool x y = true.
Proof. unfold Rle_bool. destruct (Rle_dec x y); [auto | contradiction]. Qed.








(** *** The listing of [getNearbyHotels] *)

(** C5: the listing has at most 20 entries, and each is a row of the table
    that is active and has both coordinates set. *)
Theorem getNearbyHotels_at_most_20_active_located (table : list hotel) (q : query) :
  (List.length (hotels_of (getNearbyHotels table q)) <= 20)%nat /\
  Forall (fun n => In (row n) table /\
                   isActive (row n) = true /\
                   exists hlat hlon,
                     latitude (row n) = Some hlat /\
                     longitude (row n) = Some hlon)
         (hotels_of (getNearbyHotels table q)).
Proof.
  unfold getNearbyHotels.
  destruct (q_latitude q) as [userLat|]; [|simpl; split; [lia | constructor]].
  destruct (q_longitude q) as [userLon|]; [|simpl; split; [lia | constructor]].
  cbv zeta. simpl hotels_of. split.
  - unfold nearbyHotels. apply firstn_le_length.
  - eapply Forall_impl; [|apply nearbyHotels_spec].
    simpl. intros n (Hin & Hann & _).
    apply filter_In in Hin. destruct Hin as [Hin Hw].
    split; [exact Hin|]. split; [eapply where_clause_active; exact Hw|].
    destruct (annotate_Some _ _ _ _ Hann) as (x & y & Hx & Hy & _).
    exists x, y. auto.
Qed.







End HotelController.

(* ================================================================= *)
(** ** The Prisma models the order and review routes touch *)

Module Store.

Import PrimFloat.

Inductive OrderStatus : Type :=
| PENDING | CONFIRMED | PREPARING | OUT_FOR_DELIVERY | DELIVERED | CANCELLED.

Inductive PaymentMethod : Type := CASH | CARD | MOBILE_MONEY.

Inductive Role : Type := USER | HOTEL_ADMIN | ADMIN.

(** [req.user], of which the handlers read [id], [role] and [hotelId].
    [protect] (middleware/auth.js) selects the user's id and role and no
    [hotelId]: on a request it has let through the field is undefined,
    [None] here.  [Some] is what the per-hotel guard of
    [updateOrderStatus] would compare with, were the field ever set. *)
Record principal : Type := mkPrincipal
  { uid : Z;
    role : Role;
    hotelId : option Z }.

Record hotel : Type := mkHotel
  { hotel_id : Z;
    hotel_isActive : bool;
    deliveryFee : float;
    minOrderAmount : float }.

Record menuItem : Type := mkMenuItem
  { item_id : Z;
    item_hotelId : Z;
    name : string;
    price : float;
    isAvailable : bool }.

(** An element of [req.body.items]. *)
Record cartLine : Type := mkCartLine
  { menuItemId : Z;
    quantity : float }.

Record orderItem : Type := mkOrderItem
  { oi_orderId : Z;
    oi_menuItemId : Z;
    oi_quantity : float;
    unitPrice : float;
    subtotal : float }.

Record order : Type := mkOrder
  { order_id : Z;
    orderNumber : string;
    userId : Z;
    order_hotelId : Z;
    totalAmount : float;
    deliveryAddress : string;
    deliveryTime : option string;
    status : OrderStatus;
    paymentMethod : PaymentMethod;
    paymentStatus : string;
    specialInstructions : option string;
    deliveryNotes : option string }.

Record review : Type := mkReview
  { review_id : Z;
    review_userId : Z;
    review_hotelId : Z;
    review_orderId : Z;
    rating : Z;
    comment : option string;
    images : list string }.

(** The tables, each in storage order, and the two id sequences. *)
Record db : Type := mkDb
  { hotels : list hotel;
    menuItems : list menuItem;
    orders : list order;
    orderItems : list orderItem;
    reviews : list review;
    nextOrderId : Z;
    nextReviewId : Z }.

(** The error responses of the controllers, one constructor for each
    [res.status(..).json({ success: false, message })] in the source. *)
Inductive failure : Type :=
| HotelNotFound                         (* 'Hotel not found or not active' *)
| MenuItemNotAvailable (menuItemId : Z) (* 'Menu item with ID .. not found or not available' *)
| InvalidQuantity (itemName : string)   (* 'Invalid quantity for item ..' *)
| MinimumOrderAmount (amount : float)   (* 'Minimum order amount is $..' *)
| OrderNotFound                         (* 'Order not found' *)
| NotAuthorized                         (* 'Not authorized to update this order' *)
| NotFoundOrNotCancellable              (* 'Order not found or cannot be cancelled' *)
| NotFoundOrNotReviewable               (* 'Order not found or cannot be reviewed' *)
| AlreadyReviewed.                      (* 'You have already reviewed this order' *)

(** The HTTP status each of them is sent with. *)
Definition http_status (f : failure) : Z :=
  match f with
  | HotelNotFound => 404
  | MenuItemNotAvailable _ => 400
  | InvalidQuantity _ => 400
  | MinimumOrderAmount _ => 400
  | OrderNotFound => 404
  | NotAuthorized => 403
  | NotFoundOrNotCancellable => 404
  | NotFoundOrNotReviewable => 404
  | AlreadyReviewed => 400
  end.

(** What a handler leaves: a JSON success body, one of the error
    responses, or an exception passed to [next]. *)
Inductive result (A : Type) : Type :=
| Success (code : Z) (body : A)
| Failure (f : failure)
| Thrown.

Arguments Success {A} code body.
Arguments Failure {A} f.
Arguments Thrown {A}.

Definition status_eqb (a b : OrderStatus) : bool :=
  match a, b with
  | PENDING, PENDING | CONFIRMED, CONFIRMED | PREPARING, PREPARING
  | OUT_FOR_DELIVERY, OUT_FOR_DELIVERY | DELIVERED, DELIVERED
  | CANCELLED, CANCELLED => true
  | _, _ => false
  end.

(** [prisma.order.update({ where: { id }, data })]: the row with that id is
    rewritten in place. *)
Fixpoint update_where {A : Type} (p : A -> bool) (f : A -> A) (l : list A) : list A :=
  match l with
  | [] => []
  | x :: l' => if p x then f x :: l' else x :: update_where p f l'
  end.

Definition set_orders (d : db) (os : list order) : db :=
  {| hotels := hotels d; menuItems := menuItems d; orders := os;
     orderItems := orderItems d; reviews := reviews d;
     nextOrderId := nextOrderId d; nextReviewId := nextReviewId d |}.

(** [!s] for an optional string: absent and empty are falsy. *)
Definition truthy (s : option string) : bool :=
  match s with
  | None | Some EmptyString => false
  | Some _ => true
  end.

Lemma status_eqb_eq a b : status_eqb a b = true <-> a = b.
Proof. destruct a, b; simpl; split; intros H; congruence. Qed.

Lemma find_update_where {A : Type} (p : A -> bool) (f : A -> A) l x :
  (forall y, p (f y) = p y) ->
  find p l = Some x ->
  find p (update_where p f l) = Some (f x).
Proof.
  intros Hp. induction l as [| y l IH]; simpl; [discriminate|].
  destruct (p y) eqn:E; simpl.
  - intros [= <-]. now rewrite Hp, E.
  - rewrite E. exact IH.
Qed.

Lemma find_pointwise {A : Type} (p q : A -> bool) l :
  (forall a, p a = q a) -> find p l = find q l.
Proof.
  intros H. induction l as [| x l IH]; simpl; [reflexivity|].
  now rewrite H, IH.
Qed.

End Store.

(* ================================================================= *)
(** ** controllers/orderController.js *)

Module OrderController.

Import PrimFloat.
Import Store.
Local Open Scope Z_scope.

(** [req.body] of [POST /api/orders]. *)
Record createBody : Type := mkCreateBody
  { body_hotelId : Z;
    body_deliveryAddress : string;
    body_items : list cartLine;
    body_deliveryTime : option string;
    body_specialInstructions : option string;
    body_paymentMethod : option PaymentMethod }.

(** What the payment collaborators of utils/payment.js will answer. *)
Record paymentEnv : Type := mkPaymentEnv
  { stripeConfigured : bool;
    stripeAccepts : bool;
    mobileMoneyAccepts : bool }.

(** An entry of the [orderItems] array, before it gets its [orderId]. *)
Record pricedLine : Type := mkPricedLine
  { pl_menuItemId : Z;
    pl_quantity : float;
    pl_unitPrice : float;
    pl_subtotal : float }.

(** The 201 body: the order, its items and the payment result. *)
Record created : Type := mkCreated
  { created_order : order;
    created_items : list orderItem;
    created_payment : option bool }.

(** [hotel.menuItems.find(m => m.id === item.menuItemId)] *)
Definition find_item (menu : list menuItem) (item : cartLine) : option menuItem :=
  find (fun m => item_id m =? menuItemId item) menu.

(** The [for (const item of items)] loop, with its two accumulators. *)
Fixpoint priceItems (menu : list menuItem) (items : list cartLine)
    (totalAmount : float) (orderItems : list pricedLine)
  : failure + float * list pricedLine :=
  match items with
  | [] => inr (totalAmount, orderItems)
  | item :: rest =>
      match find_item menu item with
      | None => inl (MenuItemNotAvailable (menuItemId item))
      | Some menuItem =>
          if (quantity item <? 1)%float then inl (InvalidQuantity (name menuItem))
          else
            let subtotal := (price menuItem * quantity item)%float in
            priceItems menu rest (totalAmount + subtotal)%float
              (orderItems ++ [ {| pl_menuItemId := item_id menuItem;
                                  pl_quantity := quantity item;
                                  pl_unitPrice := price menuItem;
                                  pl_subtotal := subtotal |} ])
      end
  end.

(** The callback of [orderItems.map] inside [createMany]. *)
Definition with_orderId (orderId : Z) (item : pricedLine) : orderItem :=
  {| oi_orderId := orderId;
     oi_menuItemId := pl_menuItemId item;
     oi_quantity := pl_quantity item;
     unitPrice := pl_unitPrice item;
     subtotal := pl_subtotal item |}.

(** The [if (paymentMethod === ..)] chain after the transaction; [None] is
    an exception out of [createPaymentIntent]. *)
Definition processPayment (env : paymentEnv) (m : PaymentMethod) : option bool :=
  match m with
  | CARD => if stripeConfigured env then Some (stripeAccepts env) else None
  | MOBILE_MONEY => Some (mobileMoneyAccepts env)
  | CASH => Some true
  end.

(** [createOrder]; [orderNumber] is the value [generateOrderNumber()]
    returns for this request. *)
Definition createOrder (d : db) (caller : principal) (body : createBody)
    (orderNumber : string) (env : paymentEnv) : result created * db :=
  let paymentMethod :=
    match body_paymentMethod body with Some m => m | None => CASH end in
  match find (fun h => (hotel_id h =? body_hotelId body) && hotel_isActive h)
             (hotels d) with
  | None => (Failure HotelNotFound, d)
  | Some hotel =>
      let menu :=
        filter (fun m => (item_hotelId m =? hotel_id hotel) && isAvailable m)
               (menuItems d) in
      match priceItems menu (body_items body) 0%float [] with
      | inl f => (Failure f, d)
      | inr (totalAmount, orderItems0) =>
          if (totalAmount <? minOrderAmount hotel)%float
          then (Failure (MinimumOrderAmount (minOrderAmount hotel)), d)
          else
            let totalAmount := (totalAmount + deliveryFee hotel)%float in
            let newOrder :=
              {| order_id := nextOrderId d;
                 orderNumber := orderNumber;
                 userId := uid caller;
                 order_hotelId := body_hotelId body;
                 totalAmount := totalAmount;
                 deliveryAddress := body_deliveryAddress body;
                 deliveryTime :=
                   if truthy (body_deliveryTime body)
                   then body_deliveryTime body else None;
                 status := PENDING;
                 paymentMethod := paymentMethod;
                 paymentStatus := "PENDING";
                 specialInstructions := body_specialInstructions body;
                 deliveryNotes := None |} in
            let items := map (with_orderId (order_id newOrder)) orderItems0 in
            let d' :=
              {| hotels := hotels d; menuItems := menuItems d;
                 orders := orders d ++ [newOrder];
                 orderItems := Store.orderItems d ++ items;
                 reviews := reviews d;
                 nextOrderId := nextOrderId d + 1;
                 nextReviewId := nextReviewId d |} in
            match processPayment env paymentMethod with
            | None => (Thrown, d')
            | Some paid =>
                (Success 201 {| created_order := newOrder;
                                created_items := items;
                                created_payment := Some paid |}, d')
            end
      end
  end.

(** The [data] of the update in [updateOrderStatus]: the status, and the
    delivery notes when the request has some. *)
Definition status_data (status : OrderStatus) (deliveryNotes : option string)
    (o : order) : order :=
  {| order_id := order_id o; orderNumber := orderNumber o;
     userId := userId o; order_hotelId := order_hotelId o;
     totalAmount := totalAmount o;
     deliveryAddress := deliveryAddress o;
     deliveryTime := deliveryTime o;
     status := status;
     paymentMethod := paymentMethod o;
     paymentStatus := paymentStatus o;
     specialInstructions := specialInstructions o;
     deliveryNotes :=
       if truthy deliveryNotes then deliveryNotes else Store.deliveryNotes o |}.

(** [updateOrderStatus], the handler.  On its route it runs after
    [authorize] and [validate], see [putOrderStatus]: [status] is
    [req.body.status], which [orderRules.updateStatus] has checked to be
    one of the six names. *)
Definition updateOrderStatus (d : db) (user : principal) (id : Z)
    (status : OrderStatus) (deliveryNotes : option string) : result order * db :=
  match find (fun o => order_id o =? id) (orders d) with
  | None => (Failure OrderNotFound, d)
  | Some order =>
      if match role user with HOTEL_ADMIN => true | _ => false end &&
         negb match hotelId user with
              | Some h => order_hotelId order =? h
              | None => false
              end
      then (Failure NotAuthorized, d)
      else
        (Success 200 (status_data status deliveryNotes order),
         set_orders d
           (update_where (fun o => order_id o =? id)
                         (status_data status deliveryNotes) (orders d)))
  end.

(** The [data] of the update in [cancelOrder]. *)
Definition cancelled (o : order) : order :=
  {| order_id := order_id o; orderNumber := orderNumber o;
     userId := userId o; order_hotelId := order_hotelId o;
     totalAmount := totalAmount o;
     deliveryAddress := deliveryAddress o;
     deliveryTime := deliveryTime o;
     status := CANCELLED;
     paymentMethod := paymentMethod o;
     paymentStatus := "REFUNDED";
     specialInstructions := specialInstructions o;
     deliveryNotes := deliveryNotes o |}.

(** [status: { in: ['PENDING', 'CONFIRMED'] }] *)
Definition cancellable (s : OrderStatus) : bool :=
  match s with
  | PENDING | CONFIRMED => true
  | _ => false
  end.

(** [cancelOrder] *)
Definition cancelOrder (d : db) (user : principal) (id : Z) : result order * db :=
  match find (fun o => (order_id o =? id) && (userId o =? uid user) &&
                       cancellable (status o))
             (orders d) with
  | None => (Failure NotFoundOrNotCancellable, d)
  | Some _ =>
      match find (fun o => order_id o =? id) (orders d) with
      | None => (Thrown, d)
      | Some row =>
          (Success 200 (cancelled row),
           set_orders d
             (update_where (fun o => order_id o =? id) cancelled (orders d)))
      end
  end.

(** [orderRules.updateStatus]: the names [body('status').isIn] accepts. *)
Definition status_of_name (s : string) : option OrderStatus :=
  if String.eqb s "PENDING" then Some PENDING
  else if String.eqb s "CONFIRMED" then Some CONFIRMED
  else if String.eqb s "PREPARING" then Some PREPARING
  else if String.eqb s "OUT_FOR_DELIVERY" then Some OUT_FOR_DELIVERY
  else if String.eqb s "DELIVERED" then Some DELIVERED
  else if String.eqb s "CANCELLED" then Some CANCELLED
  else None.

(** The name of a status, as it travels in [req.body.status]. *)
Definition name_of_status (s : OrderStatus) : string :=
  match s with
  | PENDING => "PENDING"
  | CONFIRMED => "CONFIRMED"
  | PREPARING => "PREPARING"
  | OUT_FOR_DELIVERY => "OUT_FOR_DELIVERY"
  | DELIVERED => "DELIVERED"
  | CANCELLED => "CANCELLED"
  end.

Definition role_eqb (a b : Role) : bool :=
  match a, b with
  | USER, USER | HOTEL_ADMIN, HOTEL_ADMIN | ADMIN, ADMIN => true
  | _, _ => false
  end.

(** [authorize(...roles)] of middleware/auth.js, on a request that
    [protect] has given its [req.user]: [roles.includes(req.user.role)]. *)
Definition authorize (roles : list Role) (user : principal) : bool :=
  existsb (role_eqb (role user)) roles.

(** What a route answers: the 403 of [authorize] ('User role .. is not
    authorized to access this route'), the 400 of [validate] with the
    field and message of the rule that failed, or what the handler
    leaves. *)
Inductive routed (A : Type) : Type :=
| RoleRefused (r : Role)
| Invalid (field message : string)
| Handled (answer : result A).

Arguments RoleRefused {A} r.
Arguments Invalid {A} field message.
Arguments Handled {A} answer.

(** [router.put('/:id/status', protect, authorize('ADMIN', 'HOTEL_ADMIN'),
    sanitize, validate(orderRules.updateStatus), updateOrderStatus)], on a
    request that [protect] has let through as [user].  [status] and
    [deliveryNotes] are the fields of [req.body] as [sanitize] leaves
    them, [None] for an absent one; [id] is an integer, so the rule on
    [param('id')] passes. *)
Definition putOrderStatus (d : db) (user : principal) (id : Z)
    (status : option string) (deliveryNotes : option string)
  : routed order * db :=
  if authorize [ADMIN; HOTEL_ADMIN] user then
    match match status with Some s => status_of_name s | None => None end with
    | None => (Invalid "status" "Invalid status", d)
    | Some s =>
        let (answer, d') := updateOrderStatus d user id s deliveryNotes in
        (Handled answer, d')
    end
  else (RoleRefused (role user), d).

(** The menu [createOrder] prices a cart against: the hotel's available
    items, as the [include] of the hotel query selects them. *)
Definition available_menu (d : db) (h : hotel) : list menuItem :=
  filter (fun m => (item_hotelId m =? hotel_id h) && isAvailable m) (menuItems d).

Definition find_hotel (d : db) (hotelId : Z) : option hotel :=
  find (fun h => (hotel_id h =? hotelId) && hotel_isActive h) (hotels d).

(** Every line names an item of the menu and has a quantity that is not
    below 1. *)
Definition cart_valid (menu : list menuItem) (items : list cartLine) : bool :=
  forallb (fun line =>
             match find_item menu line with
             | Some _ => negb (quantity line <? 1)%float
             | None => false
             end) items.

(** The subtotal of a cart: unit price times quantity, summed over the
    lines in cart order, starting from 0. *)
Definition cart_subtotal (menu : list menuItem) (items : list cartLine) : float :=
  fold_left (fun acc line =>
               match find_item menu line with
               | Some m => (acc + price m * quantity line)%float
               | None => acc
               end) items 0%float.


(** The lifecycle of the specification:
    PENDING, CONFIRMED, PREPARING, OUT_FOR_DELIVERY, DELIVERED in this
    order, and CANCELLED from PENDING or CONFIRMED. *)
Definition lifecycle_edge (from to : OrderStatus) : bool :=
  match from, to with
  | PENDING, CONFIRMED | CONFIRMED, PREPARING
  | PREPARING, OUT_FOR_DELIVERY | OUT_FOR_DELIVERY, DELIVERED
  | PENDING, CANCELLED | CONFIRMED, CANCELLED => true
  | _, _ => false
  end.

(** The guard of [updateOrderStatus]: a hotel admin of another hotel. *)
Definition other_hotel_admin (user : principal) (o : order) : bool :=
  match role user with HOTEL_ADMIN => true | _ => false end &&
  negb match hotelId user with
       | Some h => order_hotelId o =? h
       | None => false
       end.

(** *** A small catalogue and its orders

    The hotel of the specification's examples: delivery fee 2.99 and
    minimum order 10.00, written as the doubles JavaScript reads these
    decimals as. *)

Definition fee_2_99 : float := 0x1.7eb851eb851ecp+1%float.
Definition total_14_99 : float := 0x1.dfae147ae147bp+3%float.

Definition bistro : hotel :=
  {| hotel_id := 1; hotel_isActive := true;
     deliveryFee := fee_2_99; minOrderAmount := 10%float |}.

Definition soup : menuItem :=
  {| item_id := 11; item_hotelId := 1; name := "Soup";
     price := 6%float; isAvailable := true |}.

Definition tea : menuItem :=
  {| item_id := 12; item_hotelId := 1; name := "Tea";
     price := 4%float; isAvailable := true |}.

Definition catalogue : db :=
  {| hotels := [bistro]; menuItems := [soup; tea];
     orders := []; orderItems := []; reviews := [];
     nextOrderId := 1; nextReviewId := 1 |}.

Definition alice : principal := {| uid := 7; role := USER; hotelId := None |}.
Definition bob : principal := {| uid := 8; role := USER; hotelId := None |}.
Definition root : principal := {| uid := 1; role := ADMIN; hotelId := None |}.
Definition cook : principal :=
  {| uid := 2; role := HOTEL_ADMIN; hotelId := Some 1 |}.
Definition rival : principal :=
  {| uid := 3; role := HOTEL_ADMIN; hotelId := Some 2 |}.

Definition payments : paymentEnv :=
  {| stripeConfigured := false; stripeAccepts := false;
     mobileMoneyAccepts := true |}.

Definition cart (item : Z) (qty : float) : createBody :=
  {| body_hotelId := 1; body_deliveryAddress := "4 Harbour Road";
     body_items := [ {| menuItemId := item; quantity := qty |} ];
     body_deliveryTime := None; body_specialInstructions := None;
     body_paymentMethod := None |}.

Definition first_order (s : OrderStatus) : order :=
  {| order_id := 1; orderNumber := "ORD-20240105-K3F9A0042";
     userId := 7; order_hotelId := 1; totalAmount := total_14_99;
     deliveryAddress := "4 Harbour Road"; deliveryTime := None;
     status := s; paymentMethod := CASH; paymentStatus := "PENDING";
     specialInstructions := None; deliveryNotes := None |}.

Definition first_items : list orderItem :=
  [ {| oi_orderId := 1; oi_menuItemId := 11; oi_quantity := 2%float;
       unitPrice := 6%float; subtotal := 12%float |} ].

(** The tables once alice has ordered two soups, with the order in status
    [s]. *)
Definition ordered (s : OrderStatus) : db :=
  {| hotels := [bistro]; menuItems := [soup; tea];
     orders := [first_order s]; orderItems := first_items; reviews := [];
     nextOrderId := 2; nextReviewId := 1 |}.

(** The six names the validation admits are the six statuses. *)
Lemma status_of_name_of_status (s : OrderStatus) :
  status_of_name (name_of_status s) = Some s.
Proof. destruct s; reflexivity. Qed.

Lemma status_of_name_Some (n : string) (s : OrderStatus) :
  status_of_name n = Some s -> n = name_of_status s.
Proof.
  unfold status_of_name.
  repeat match goal with
         | |- context [String.eqb n ?x] =>
             destruct (String.eqb_spec n x) as [-> | _];
             [intros [= <-]; reflexivity|]
         end.
  discriminate.
Qed.

(** *** Pricing *)


Lemma priceItems_valid menu items :
  forall acc pre,
    cart_valid menu items = true ->
    exists ls,
      priceItems menu items acc pre =
      inr (fold_left (fun a line =>
                        match find_item menu line with
                        | Some m => (a + price m * quantity line)%float
                        | None => a
                        end) items acc, ls).
Proof.
  induction items as [| item rest IH]; simpl; intros acc pre H.
  - eexists; reflexivity.
  - apply andb_prop in H. destruct H as [H1 H2].
    destruct (find_item menu item) as [m|]; [|discriminate].
    destruct (quantity item <? 1)%float; [discriminate|].
    apply IH. exact H2.
Qed.


(** Every response other than the 201 and an exception out of the payment
    step leaves the tables as they were. *)
Lemma createOrder_failure_unchanged d caller body num env f d' :
  createOrder d caller body num env = (Failure f, d') -> d' = d.
Proof.
  unfold createOrder.
  destruct (find _ (hotels d)) as [h|]; [|now intros [= _ <-]].
  destruct (priceItems _ _ _ _) as [e | [t ls]]; [now intros [= _ <-]|].
  destruct (t <? minOrderAmount h)%float; [now intros [= _ <-]|].
  destruct (processPayment _ _); discriminate.
Qed.


(** C3: when the hotel is found, every line of the cart is valid and the
    cart's subtotal, before the delivery fee, is below the hotel's
    minOrderAmount, [createOrder] answers 400 'Minimum order amount is ..'
    and the tables, the order and order item tables among them, are what
    they were. *)
Theorem createOrder_below_minimum d caller body num env h :
  find_hotel d (body_hotelId body) = Some h ->
  cart_valid (available_menu d h) (body_items body) = true ->
  (cart_subtotal (available_menu d h) (body_items body)
     <? minOrderAmount h)%float = true ->
  createOrder d caller body num env =
    (Failure (MinimumOrderAmount (minOrderAmount h)), d) /\
  http_status (MinimumOrderAmount (minOrderAmount h)) = 400.
Proof.
  intros Hh Hv Hlt. split; [|reflexivity].
  unfold createOrder. unfold find_hotel in Hh. rewrite Hh.
  fold (available_menu d h).
  destruct (priceItems_valid _ _ 0%float [] Hv) as (ls & ->).
  unfold cart_subtotal in Hlt. now rewrite Hlt.
Qed.

(** *** Status updates *)

Lemma find_id_after_update id f (os : list order) o :
  (forall x, order_id (f x) = order_id x) ->
  find (fun o => order_id o =? id) os = Some o ->
  find (fun o => order_id o =? id)
       (update_where (fun o => order_id o =? id) f os) = Some (f o).
Proof.
  intros Hf. apply find_update_where. intros y. now rewrite Hf.
Qed.

Lemma updateOrderStatus_found d user id st notes o :
  find (fun o => order_id o =? id) (orders d) = Some o ->
  updateOrderStatus d user id st notes =
  if other_hotel_admin user o then (Failure NotAuthorized, d)
  else (Success 200 (status_data st notes o),
        set_orders d
          (update_where (fun o => order_id o =? id) (status_data st notes)
                        (orders d))).
Proof. intros H. unfold updateOrderStatus. now rewrite H. Qed.

Lemma updateOrderStatus_stored d id st notes o :
  find (fun o => order_id o =? id) (orders d) = Some o ->
  find (fun o => order_id o =? id)
       (orders (set_orders d
                  (update_where (fun o => order_id o =? id)
                                (status_data st notes) (orders d))))
  = Some (status_data st notes o).
Proof.
  intros H. simpl orders. apply find_id_after_update; [reflexivity | exact H].
Qed.

(** C2, as the code has it: the status route does not look at the
    current status.  For an order that exists and a caller with role
    ADMIN, every status the validation admits is accepted: the answer is
    200, the stored order carries the requested status, and its id, owner,
    hotel, amount and payment status are what they were.  A caller with
    role USER does not reach the handler: [authorize] answers 403 and
    nothing is written. *)
Theorem updateOrderStatus_accepts_any_status d user id st notes o :
  find (fun o => order_id o =? id) (orders d) = Some o ->
  (role user = ADMIN ->
   exists o' d',
     putOrderStatus d user id (Some (name_of_status st)) notes
       = (Handled (Success 200 o'), d') /\
     find (fun o => order_id o =? id) (orders d') = Some o' /\
     status o' = st /\
     order_id o' = order_id o /\ userId o' = userId o /\
     order_hotelId o' = order_hotelId o /\
     totalAmount o' = totalAmount o /\
     paymentStatus o' = paymentStatus o) /\
  (role user = USER ->
   putOrderStatus d user id (Some (name_of_status st)) notes
     = (RoleRefused USER, d)).
Proof.
  intros Hfind. unfold putOrderStatus, authorize. split; intros Hrole.
  - rewrite Hrole. cbn [existsb role_eqb orb].
    rewrite status_of_name_of_status.
    rewrite (updateOrderStatus_found _ _ _ _ _ _ Hfind).
    assert (Hguard : other_hotel_admin user o = false).
    { unfold other_hotel_admin. now rewrite Hrole. }
    rewrite Hguard. exists (status_data st notes o). eexists.
    split; [reflexivity|].
    split; [now apply updateOrderStatus_stored | simpl; auto 10].
  - rewrite Hrole. reflexivity.
Qed.

(** C10: with the order found, a HOTEL_ADMIN whose hotelId is not the
    order's gets 403 'Not authorized to update this order' and the tables
    are what they were; for an ADMIN the update goes through whatever the
    hotel. *)
Theorem updateOrderStatus_hotel_admin_of_other_hotel d user id st notes o :
  find (fun o => order_id o =? id) (orders d) = Some o ->
  (role user = HOTEL_ADMIN ->
   hotelId user <> Some (order_hotelId o) ->
   updateOrderStatus d user id st notes = (Failure NotAuthorized, d) /\
   http_status NotAuthorized = 403) /\
  (role user = ADMIN ->
   exists o' d',
     updateOrderStatus d user id st notes = (Success 200 o', d') /\
     find (fun o => order_id o =? id) (orders d') = Some o' /\
     status o' = st).
Proof.
  intros Hfind. rewrite (updateOrderStatus_found _ _ _ _ _ _ Hfind).
  unfold other_hotel_admin. split.
  - intros Hrole Hdiff. split; [|reflexivity]. rewrite Hrole.
    destruct (hotelId user) as [h|]; [|reflexivity].
    destruct (order_hotelId o =? h) eqn:E; [|reflexivity].
    apply Z.eqb_eq in E. subst h. now contradiction Hdiff.
  - intros Hrole. rewrite Hrole. simpl andb. cbv iota.
    exists (status_data st notes o). eexists.
    split; [reflexivity|].
    split; [now apply updateOrderStatus_stored | reflexivity].
Qed.

(** *** Cancellation *)

Lemma find_key_where (q : order -> bool) id (os : list order) :
  NoDup (map order_id os) ->
  find (fun o => (order_id o =? id) && q o) os =
  match find (fun o => order_id o =? id) os with
  | Some o => if q o then Some o else None
  | None => None
  end.
Proof.
  induction os as [| x os IH]; simpl; [reflexivity|].
  intros Hnd. apply NoDup_cons_iff in Hnd. destruct Hnd as [Hx Hnd].
  destruct (order_id x =? id) eqn:E; simpl.
  - destruct (q x); [reflexivity|].
    rewrite IH by exact Hnd.
    apply Z.eqb_eq in E.
    destruct (find (fun o => order_id o =? id) os) as [y|] eqn:Ey; [|reflexivity].
    exfalso. apply find_some in Ey. destruct Ey as [Hin Hy].
    apply Z.eqb_eq in Hy. apply Hx. rewrite E, <- Hy. now apply in_map.
  - apply IH, Hnd.
Qed.

(** C6, as the code has it: with ids a key of the order table,
    [cancelOrder] succeeds when the order with that id belongs to the
    caller and is PENDING or CONFIRMED, and then stores it with status
    CANCELLED and paymentStatus REFUNDED; when there is no such order of
    the caller's, whoever the caller is, it answers
    'Order not found or cannot be cancelled' and the tables are what they
    were. *)
Theorem cancelOrder_owner_pending_or_confirmed d user id :
  NoDup (map order_id (orders d)) ->
  (forall o,
     find (fun o => order_id o =? id) (orders d) = Some o ->
     userId o = uid user ->
     status o = PENDING \/ status o = CONFIRMED ->
     exists d',
       cancelOrder d user id = (Success 200 (cancelled o), d') /\
       find (fun o => order_id o =? id) (orders d') = Some (cancelled o) /\
       status (cancelled o) = CANCELLED /\
       paymentStatus (cancelled o) = "REFUNDED"%string) /\
  ((forall o,
      find (fun o => order_id o =? id) (orders d) = Some o ->
      userId o <> uid user \/
      (status o <> PENDING /\ status o <> CONFIRMED)) ->
   cancelOrder d user id = (Failure NotFoundOrNotCancellable, d)).
Proof.
  intros Hkey. unfold cancelOrder.
  assert (Hw := find_key_where
                  (fun o => (userId o =? uid user) && cancellable (status o))
                  id (orders d) Hkey).
  assert (Hshape :
    find (fun o => (order_id o =? id) && (userId o =? uid user) &&
                   cancellable (status o)) (orders d) =
    find (fun o => (order_id o =? id) &&
                   ((userId o =? uid user) && cancellable (status o)))
         (orders d)).
  { apply find_pointwise. intros a. now rewrite andb_assoc. }
  rewrite Hshape, Hw. clear Hshape Hw. split.
  - intros o Hfind Hown Hst. rewrite Hfind.
    rewrite Hown, Z.eqb_refl.
    assert (Hc : cancellable (status o) = true) by (destruct Hst as [-> | ->]; reflexivity).
    rewrite Hc. simpl andb. cbv iota.
    eexists. split; [reflexivity|]. split; [|split; reflexivity].
    simpl orders. apply find_id_after_update; [reflexivity | exact Hfind].
  - intros Hno.
    destruct (find (fun o => order_id o =? id) (orders d)) as [o|] eqn:Hfind;
      [|reflexivity].
    destruct (Hno o eq_refl) as [Hown | [Hp Hc]].
    + apply Z.eqb_neq in Hown. now rewrite Hown.
    + destruct (status o); try congruence;
        now rewrite andb_false_r.
Qed.


(** [createOrder_below_minimum] at a cart of one tea, 4.00 against a
    minimum of 10.00. *)
Lemma createOrder_below_minimum_witness :
  createOrder catalogue alice (cart 12 1%float) "ORD-20240105-K3F9A0042" payments
  = (Failure (MinimumOrderAmount 10%float), catalogue) /\
  http_status (MinimumOrderAmount 10%float) = 400.
Proof.
  apply (createOrder_below_minimum catalogue alice (cart 12 1%float)
           "ORD-20240105-K3F9A0042" payments bistro); reflexivity.
Defined.

(** [updateOrderStatus_accepts_any_status] at an ADMIN, who takes a
    PENDING order straight to DELIVERED, and at the customer who placed
    it. *)
Lemma updateOrderStatus_accepts_any_status_witness :
  (exists o' d',
     putOrderStatus (ordered PENDING) root 1 (Some "DELIVERED"%string)
       (Some "left at desk"%string) = (Handled (Success 200 o'), d') /\
     find (fun o => order_id o =? 1) (orders d') = Some o' /\
     status o' = DELIVERED /\
     order_id o' = 1 /\ userId o' = 7 /\ order_hotelId o' = 1 /\
     totalAmount o' = total_14_99 /\
     paymentStatus o' = "PENDING"%string) /\
  putOrderStatus (ordered PENDING) alice 1 (Some "DELIVERED"%string)
    (Some "left at desk"%string) = (RoleRefused USER, ordered PENDING).
Proof.
  split.
  - apply (updateOrderStatus_accepts_any_status (ordered PENDING) root 1 DELIVERED
             (Some "left at desk"%string) (first_order PENDING) eq_refl).
    reflexivity.
  - apply (updateOrderStatus_accepts_any_status (ordered PENDING) alice 1 DELIVERED
             (Some "left at desk"%string) (first_order PENDING) eq_refl).
    reflexivity.
Defined.

(** C2, counterexample: an ADMIN puts a DELIVERED order back to PENDING,
    which is no edge of the lifecycle; the route answers 200 and the
    stored order is PENDING. *)
Lemma updateOrderStatus_reopens_delivered :
  lifecycle_edge DELIVERED PENDING = false /\
  putOrderStatus (ordered DELIVERED) root 1 (Some "PENDING"%string) None
    = (Handled (Success 200 (first_order PENDING)), ordered PENDING) /\
  updateOrderStatus (ordered DELIVERED) root 1 PENDING None
    = (Success 200 (first_order PENDING), ordered PENDING) /\
  find (fun o => order_id o =? 1) (orders (ordered PENDING))
    = Some (first_order PENDING).
Proof. repeat split. Qed.

(** [updateOrderStatus_hotel_admin_of_other_hotel] at the admin of hotel 2
    and at an ADMIN, on an order of hotel 1. *)
Lemma updateOrderStatus_hotel_admin_of_other_hotel_witness :
  (updateOrderStatus (ordered PENDING) rival 1 CONFIRMED None
     = (Failure NotAuthorized, ordered PENDING) /\
   http_status NotAuthorized = 403) /\
  (exists o' d',
     updateOrderStatus (ordered PENDING) root 1 CONFIRMED None
       = (Success 200 o', d') /\
     find (fun o => order_id o =? 1) (orders d') = Some o' /\
     status o' = CONFIRMED).
Proof.
  split.
  - apply (updateOrderStatus_hotel_admin_of_other_hotel (ordered PENDING) rival 1
             CONFIRMED None (first_order PENDING) eq_refl).
    + reflexivity.
    + discriminate.
  - apply (updateOrderStatus_hotel_admin_of_other_hotel (ordered PENDING) root 1
             CONFIRMED None (first_order PENDING) eq_refl).
    reflexivity.
Defined.

Lemma ordered_keyed s : NoDup (map order_id (orders (ordered s))).
Proof. simpl. constructor; [intros [] | constructor]. Qed.

(** [cancelOrder_owner_pending_or_confirmed] at alice's CONFIRMED order,
    cancelled by alice and refused to bob. *)
Lemma cancelOrder_owner_pending_or_confirmed_witness :
  NoDup (map order_id (orders (ordered CONFIRMED))) /\
  (exists d',
     cancelOrder (ordered CONFIRMED) alice 1
       = (Success 200 (cancelled (first_order CONFIRMED)), d') /\
     find (fun o => order_id o =? 1) (orders d')
       = Some (cancelled (first_order CONFIRMED)) /\
     status (cancelled (first_order CONFIRMED)) = CANCELLED /\
     paymentStatus (cancelled (first_order CONFIRMED)) = "REFUNDED"%string) /\
  cancelOrder (ordered CONFIRMED) bob 1
    = (Failure NotFoundOrNotCancellable, ordered CONFIRMED).
Proof.
  split; [apply ordered_keyed|]. split.
  - apply (proj1 (cancelOrder_owner_pending_or_confirmed (ordered CONFIRMED) alice 1
                    (ordered_keyed CONFIRMED)) (first_order CONFIRMED)).
    + reflexivity.
    + reflexivity.
    + right. reflexivity.
  - apply (proj2 (cancelOrder_owner_pending_or_confirmed (ordered CONFIRMED) bob 1
                    (ordered_keyed CONFIRMED))).
    intros o [= <-]. left. discriminate.
Defined.

(** C6, counterexample: for alice's PENDING order, neither another user
    nor an ADMIN is answered with the permission error (403) of this
    controller; each gets 404 'Order not found or cannot be cancelled', and
    the ADMIN, an operator, cannot cancel it. *)
Lemma cancelOrder_not_owner_is_not_found :
  cancelOrder (ordered PENDING) bob 1
    = (Failure NotFoundOrNotCancellable, ordered PENDING) /\
  cancelOrder (ordered PENDING) root 1
    = (Failure NotFoundOrNotCancellable, ordered PENDING) /\
  http_status NotFoundOrNotCancellable = 404 /\
  http_status NotFoundOrNotCancellable <> http_status NotAuthorized.
Proof. repeat split. discriminate. Qed.

End OrderController.

(* ================================================================= *)
(** ** controllers/userController.js: [submitReview] *)

Module UserController.

Import Store.
Local Open Scope Z_scope.

(** [req.body] of [POST /api/users/orders/:orderId/review], with [rating]
    after [parseInt]. *)
Record reviewBody : Type := mkReviewBody
  { body_rating : Z;
    body_comment : option string;
    body_images : option (list string) }.

(** The [where] of the order lookup: this id, this user, DELIVERED. *)
Definition reviewable (user : principal) (orderId : Z) (o : order) : bool :=
  (order_id o =? orderId) && (userId o =? uid user) &&
  status_eqb (status o) DELIVERED.

(** The [where] of the lookup for an earlier review. *)
Definition reviewed_by (user : principal) (orderId : Z) (r : review) : bool :=
  (review_orderId r =? orderId) && (review_userId r =? uid user).

(** [submitReview], up to the review it stores.  The update of
    [Hotel.rating] and [Hotel.totalReviews] that follows writes two columns
    the hotel rows of [Store] do not carry. *)
Definition submitReview (d : db) (user : principal) (orderId : Z)
    (body : reviewBody) : result review * db :=
  match find (reviewable user orderId) (orders d) with
  | None => (Failure NotFoundOrNotReviewable, d)
  | Some order =>
      match find (reviewed_by user orderId) (reviews d) with
      | Some _ => (Failure AlreadyReviewed, d)
      | None =>
          let review :=
            {| review_id := nextReviewId d;
               review_userId := uid user;
               review_hotelId := order_hotelId order;
               review_orderId := orderId;
               rating := body_rating body;
               comment := body_comment body;
               images := match body_images body with
                         | Some l => l
                         | None => []
                         end |} in
          (Success 201 review,
           {| hotels := hotels d; menuItems := menuItems d;
              orders := orders d; orderItems := orderItems d;
              reviews := reviews d ++ [review];
              nextOrderId := nextOrderId d;
              nextReviewId := nextReviewId d + 1 |})
      end
  end.

(** The (order, user) pair a review is about. *)
Definition review_key (r : review) : Z * Z := (review_orderId r, review_userId r).

(** No two stored reviews are about the same (order, user) pair. *)
Definition one_review_per_pair (d : db) : Prop :=
  NoDup (map review_key (reviews d)).

Lemma find_reviewed_none user orderId rs :
  find (reviewed_by user orderId) rs = None ->
  ~ In (orderId, uid user) (map review_key rs).
Proof.
  intros Hnone Hin. apply in_map_iff in Hin. destruct Hin as (r & Hk & Hin).
  apply (find_none _ _ Hnone) in Hin.
  unfold review_key in Hk. injection Hk as H1 H2.
  unfold reviewed_by in Hin. now rewrite H1, H2, !Z.eqb_refl in Hin.
Qed.

Lemma NoDup_snoc {A : Type} (l : list A) (x : A) :
  NoDup l -> ~ In x l -> NoDup (l ++ [x]).
Proof.
  intros Hl Hx. induction Hl as [| y l Hy Hl IH]; simpl.
  - constructor; [intros [] | constructor].
  - constructor.
    + rewrite in_app_iff. simpl. intros [H | [H | []]]; [contradiction|].
      subst. apply Hx. now left.
    + apply IH. intros H. apply Hx. now right.
Qed.

(** Whatever the answer, [submitReview] keeps the reviews at one per
    (order, user) pair. *)
Lemma submitReview_keeps_one_per_pair d user orderId body :
  one_review_per_pair d ->
  one_review_per_pair (snd (submitReview d user orderId body)).
Proof.
  intros Hnd. unfold submitReview.
  destruct (find (reviewable user orderId) (orders d)) as [o|]; [|exact Hnd].
  destruct (find (reviewed_by user orderId) (reviews d)) as [r0|] eqn:Hr;
    [exact Hnd|].
  unfold one_review_per_pair. simpl.
  rewrite map_app. simpl. apply NoDup_snoc; [exact Hnd|].
  unfold review_key at 1. simpl. now apply find_reviewed_none.
Qed.

(** Once a review of the order by the user is in the table, [submitReview]
    stores nothing for that pair. *)
Lemma submitReview_reviewed d user orderId body r :
  In r (reviews d) ->
  review_orderId r = orderId -> review_userId r = uid user ->
  submitReview d user orderId body =
  (Failure match find (reviewable user orderId) (orders d) with
           | Some _ => AlreadyReviewed
           | None => NotFoundOrNotReviewable
           end, d).
Proof.
  intros Hin Ho Hu. unfold submitReview.
  destruct (find (reviewable user orderId) (orders d)) as [o|]; [|reflexivity].
  destruct (find (reviewed_by user orderId) (reviews d)) as [r1|] eqn:Hr;
    [reflexivity|].
  apply (find_none _ _ Hr) in Hin. unfold reviewed_by in Hin.
  now rewrite Ho, Hu, !Z.eqb_refl in Hin.
Qed.

(** C7: a review is stored only for an order of the caller's that is
    DELIVERED; storing keeps the reviews at one per (order, user) pair;
    and after a review has been stored, the same user's next attempt on
    the same order answers 400 'You have already reviewed this order' and
    stores nothing, as does any later attempt while the review is in the
    table and the order is still found. *)
Theorem submitReview_delivered_once d user orderId body code r d' :
  submitReview d user orderId body = (Success code r, d') ->
  (exists o, In o (orders d) /\ order_id o = orderId /\
             userId o = uid user /\ status o = DELIVERED) /\
  reviews d' = reviews d ++ [r] /\
  review_orderId r = orderId /\ review_userId r = uid user /\
  (one_review_per_pair d -> one_review_per_pair d') /\
  (forall body',
     submitReview d' user orderId body' = (Failure AlreadyReviewed, d')) /\
  http_status AlreadyReviewed = 400 /\
  (forall d'' body',
     In r (reviews d'') ->
     submitReview d'' user orderId body' =
     (Failure match find (reviewable user orderId) (orders d'') with
              | Some _ => AlreadyReviewed
              | None => NotFoundOrNotReviewable
              end, d'')).
Proof.
  intros Hrun.
  assert (Hinv := submitReview_keeps_one_per_pair d user orderId body).
  rewrite Hrun in Hinv. simpl snd in Hinv.
  revert Hrun Hinv. unfold submitReview at 1.
  destruct (find (reviewable user orderId) (orders d)) as [o|] eqn:Ho;
    [|discriminate].
  destruct (find (reviewed_by user orderId) (reviews d)) as [r0|] eqn:Hr;
    [discriminate|].
  intros [= <- <- <-] Hinv.
  set (r := {| review_id := nextReviewId d; review_userId := uid user;
               review_hotelId := order_hotelId o; review_orderId := orderId;
               rating := body_rating body; comment := body_comment body;
               images := match body_images body with
                         | Some l => l
                         | None => []
                         end |}) in *.
  split.
  { apply find_some in Ho. destruct Ho as [Hin Hp]. exists o.
    unfold reviewable in Hp.
    apply andb_prop in Hp. destruct Hp as [Hp Hs].
    apply andb_prop in Hp. destruct Hp as [Hi Hu].
    apply Z.eqb_eq in Hi, Hu. apply status_eqb_eq in Hs. auto. }
  split; [reflexivity|]. split; [reflexivity|]. split; [reflexivity|].
  split; [exact Hinv|]. split; [|split; [reflexivity|]].
  - intros body'.
    rewrite (submitReview_reviewed _ user orderId body' r); try reflexivity.
    + simpl orders. now rewrite Ho.
    + simpl reviews. apply in_or_app. right. now left.
  - intros d'' body' Hin.
    now apply (submitReview_reviewed d'' user orderId body' r).
Qed.

(** While an order is not DELIVERED no review of it is stored, whoever
    asks. *)
Lemma submitReview_not_delivered d user orderId body :
  (forall o, In o (orders d) -> order_id o = orderId -> status o <> DELIVERED) ->
  submitReview d user orderId body = (Failure NotFoundOrNotReviewable, d).
Proof.
  intros H. unfold submitReview.
  destruct (find (reviewable user orderId) (orders d)) as [o|] eqn:Ho;
    [|reflexivity].
  apply find_some in Ho. destruct Ho as [Hin Hp]. unfold reviewable in Hp.
  apply andb_prop in Hp. destruct Hp as [Hp Hs].
  apply andb_prop in Hp. destruct Hp as [Hi _].
  apply Z.eqb_eq in Hi. apply status_eqb_eq in Hs.
  now destruct (H o Hin Hi).
Qed.

(** [submitReview_delivered_once] at alice's DELIVERED order, reviewed
    once and then again. *)
Lemma submitReview_delivered_once_witness :
  let d := OrderController.ordered DELIVERED in
  let body := {| body_rating := 5; body_comment := Some "on time"%string;
                 body_images := None |} in
  exists r d',
    submitReview d OrderController.alice 1 body = (Success 201 r, d') /\
    reviews d' = reviews d ++ [r] /\
    (one_review_per_pair d -> one_review_per_pair d') /\
    submitReview d' OrderController.alice 1 body = (Failure AlreadyReviewed, d').
Proof.
  intros d body. eexists _, _.
  assert (H : submitReview d OrderController.alice 1 body = (Success 201 _, _))
    by reflexivity.
  split; [exact H|].
  destruct (submitReview_delivered_once _ _ _ _ _ _ _ H)
    as (_ & Hr & _ & _ & Hinv & Hagain & _).
  split; [exact Hr|]. split; [exact Hinv|]. apply Hagain.
Defined.

End UserController.

(* ================================================================= *)
(** ** utils/geolocation.js: the delivery helpers

    [isWithinDeliveryRadius] and [estimateDeliveryTime], read over the
    reals like [Geolocation].  What is stated of them is chosen not to hang
    on rounding: the two argument orders of the distance go through the
    same operations, the distance of a point to itself is 0 without any
    rounding, and the operations of the estimate are monotone. *)

Module GeolocationUtils.

Import Geolocation.
Local Open Scope R_scope.

(** [isWithinDeliveryRadius(hotelLat, hotelLon, userLat, userLon, radius)];
    an argument is [None] when it is [null] or [undefined]. *)
Definition isWithinDeliveryRadius
    (hotelLat hotelLon userLat userLon : option R) (radius : R) : bool :=
  if HotelController.falsy hotelLat || HotelController.falsy hotelLon ||
     HotelController.falsy userLat || HotelController.falsy userLon
  then false
  else
    match hotelLat, hotelLon, userLat, userLon with
    | Some hlat, Some hlon, Some ulat, Some ulon =>
        HotelController.Rle_bool (calculateDistance hlat hlon ulat ulon) radius
    | _, _, _, _ => false
    end.

(** The keys of [trafficMultiplier]. *)
Inductive traffic : Type := low | medium | high.

Definition trafficMultiplier (t : traffic) : R :=
  match t with
  | low => 1
  | medium => 13 / 10
  | high => 18 / 10
  end.

(** [estimateDeliveryTime(distance, traffic = 'medium')], for the three
    traffic conditions the table knows. *)
Definition estimateDeliveryTime (distance : R) (t : option traffic) : Z :=
  let traffic := match t with Some c => c | None => medium end in
  let baseSpeed := 30 in
  let speed := baseSpeed / trafficMultiplier traffic in
  let timeHours := (distance / 1000) / speed in
  let timeMinutes := timeHours * 60 in
  let prepTime := 20 in
  HotelController.Math_ceil (timeMinutes + prepTime).

(** *** The distance, again *)

Lemma calculateDistance_swap (lat1 lon1 lat2 lon2 : R) :
  calculateDistance lat1 lon1 lat2 lon2 = calculateDistance lat2 lon2 lat1 lon1.
Proof.
  unfold calculateDistance; cbv zeta.
  now rewrite (haversine_a_sym lat1 lon1 lat2 lon2).
Qed.

Lemma calculateDistance_same_point (lat lon : R) :
  calculateDistance lat lon lat lon = 0.
Proof.
  unfold calculateDistance; cbv zeta.
  rewrite haversine_a_refl, Rminus_0_r, sqrt_0, sqrt_1, atan2_0_1. lra.
Qed.

(** *** [isWithinDeliveryRadius] *)

(** Swapping the hotel and the user does not change the answer. *)
Theorem isWithinDeliveryRadius_symmetric
    (hotelLat hotelLon userLat userLon : option R) (radius : R) :
  isWithinDeliveryRadius hotelLat hotelLon userLat userLon radius =
  isWithinDeliveryRadius userLat userLon hotelLat hotelLon radius.
Proof.
  unfold isWithinDeliveryRadius.
  destruct hotelLat as [a|], hotelLon as [b|], userLat as [c|], userLon as [e|];
    simpl; try reflexivity;
    repeat match goal with
           | |- context [Req_dec_T ?x 0] => destruct (Req_dec_T x 0)
           end; simpl; try reflexivity.
  now rewrite (calculateDistance_swap a b c e).
Qed.

(** A user standing at the hotel is within every radius that is not
    negative, unless the latitude or the longitude of the place is 0: a
    coordinate of 0 counts as missing and the answer is then [false]. *)
Theorem isWithinDeliveryRadius_same_point (lat lon radius : R) :
  (lat <> 0 -> lon <> 0 -> 0 <= radius ->
   isWithinDeliveryRadius (Some lat) (Some lon) (Some lat) (Some lon) radius = true) /\
  (lat = 0 \/ lon = 0 ->
   isWithinDeliveryRadius (Some lat) (Some lon) (Some lat) (Some lon) radius = false).
Proof.
  unfold isWithinDeliveryRadius. simpl. split.
  - intros Hlat Hlon Hr.
    destruct (Req_dec_T lat 0); [contradiction|].
    destruct (Req_dec_T lon 0); [contradiction|]. simpl.
    rewrite (calculateDistance_same_point lat lon).
    now apply HotelController.Rle_bool_intro.
  - intros [-> | ->].
    + destruct (Req_dec_T 0 0); [reflexivity | contradiction].
    + destruct (Req_dec_T lat 0); [reflexivity|].
      destruct (Req_dec_T 0 0); [reflexivity | contradiction].
Qed.

(** *** [estimateDeliveryTime] *)

Lemma trafficMultiplier_pos (t : traffic) : 0 < trafficMultiplier t.
Proof. destruct t; simpl; lra. Qed.

(** The estimate is the ceiling of [distance * multiplier / 500 + 20]. *)
Lemma estimateDeliveryTime_closed_form (distance : R) (t : option traffic) :
  estimateDeliveryTime distance t =
  Zceil (distance * trafficMultiplier (match t with Some c => c | None => medium end)
         / 500 + 20).
Proof.
  unfold estimateDeliveryTime, HotelController.Math_ceil; cbv zeta.
  f_equal. generalize (trafficMultiplier_pos
                         (match t with Some c => c | None => medium end)).
  intros Hm. field. lra.
Qed.

(** For a distance that is not negative the estimate is at least the 20
    minutes of preparation, whatever the traffic, and at distance 0 it is
    those 20 minutes. *)
Theorem estimateDeliveryTime_at_least_preparation (distance : R) (t : option traffic) :
  0 <= distance ->
  (20 <= estimateDeliveryTime distance t)%Z /\
  estimateDeliveryTime 0 t = 20%Z.
Proof.
  intros Hd. rewrite !estimateDeliveryTime_closed_form.
  set (m := trafficMultiplier (match t with Some c => c | None => medium end)).
  assert (Hm : 0 < m) by apply trafficMultiplier_pos.
  assert (Hx : 0 <= distance * m / 500).
  { apply Rmult_le_pos; [|lra]. apply Rmult_le_pos; lra. }
  assert (H20 : Zceil 20 = 20%Z) by (apply Zceil_eq; simpl; lra).
  split.
  - rewrite <- H20 at 1. apply Zceil_le. lra.
  - replace (0 * m / 500 + 20) with 20 by lra. exact H20.
Qed.

(** The estimate grows with the distance, and at a given distance with the
    traffic: low, then medium (the default), then high. *)
Theorem estimateDeliveryTime_monotone (d1 d2 : R) (t : option traffic) :
  0 <= d1 <= d2 ->
  (estimateDeliveryTime d1 t <= estimateDeliveryTime d2 t)%Z /\
  (estimateDeliveryTime d1 (Some low) <= estimateDeliveryTime d1 None)%Z /\
  estimateDeliveryTime d1 None = estimateDeliveryTime d1 (Some medium) /\
  (estimateDeliveryTime d1 (Some medium) <= estimateDeliveryTime d1 (Some high))%Z.
Proof.
  intros [H1 H2]. rewrite !estimateDeliveryTime_closed_form.
  repeat split.
  - apply Zceil_le.
    generalize (trafficMultiplier_pos
                  (match t with Some c => c | None => medium end)).
    intros Hm. nra.
  - apply Zceil_le. simpl. lra.
  - apply Zceil_le. simpl. lra.
Qed.

(** [isWithinDeliveryRadius_same_point] at (40.7128, -74.006), and on the
    equator. *)
Lemma isWithinDeliveryRadius_same_point_witness :
  isWithinDeliveryRadius (Some (407128 / 10000)) (Some (- (74006 / 1000)))
    (Some (407128 / 10000)) (Some (- (74006 / 1000))) 5000 = true /\
  isWithinDeliveryRadius (Some 0) (Some 36) (Some 0) (Some 36) 5000 = false.
Proof.
  split.
  - apply (isWithinDeliveryRadius_same_point (407128 / 10000) (- (74006 / 1000)) 5000);
      lra.
  - apply (isWithinDeliveryRadius_same_point 0 36 5000). left. reflexivity.
Defined.

(** [estimateDeliveryTime_at_least_preparation] at 1500 m in high traffic. *)
Lemma estimateDeliveryTime_at_least_preparation_witness :
  (20 <= estimateDeliveryTime 1500 (Some high))%Z /\
  estimateDeliveryTime 0 (Some high) = 20%Z.
Proof.
  apply (estimateDeliveryTime_at_least_preparation 1500 (Some high)). lra.
Defined.

(** [estimateDeliveryTime_monotone] between 1500 m and 4000 m. *)
Lemma estimateDeliveryTime_monotone_witness :
  (estimateDeliveryTime 1500 (Some low) <= estimateDeliveryTime 4000 (Some low))%Z /\
  (estimateDeliveryTime 1500 (Some low) <= estimateDeliveryTime 1500 None)%Z /\
  estimateDeliveryTime 1500 None = estimateDeliveryTime 1500 (Some medium) /\
  (estimateDeliveryTime 1500 (Some medium) <= estimateDeliveryTime 1500 (Some high))%Z.
Proof.
  apply (estimateDeliveryTime_monotone 1500 4000 (Some low)). lra.
Defined.

End GeolocationUtils.

(* ================================================================= *)
(** ** controllers/hotelController.js: what the nearby search finds *)

Module NearbySearch.

Import Geolocation.
Import HotelController.
Local Open Scope R_scope.




(** The listing a query with coordinates is answered with. *)
Definition listing (table : list hotel) (userLat userLon : R)
    (radius : option Z) (cuisine : option string) : list nearby :=
  hotels_of (getNearbyHotels table
               (mkQuery (Some userLat) (Some userLon) radius cuisine)).


(** *** The sort moves entries, it neither adds nor drops any *)




(** *** From a row to its entry *)



(** *** What is listed *)



(** *** The listing along the meridian, once more *)





End NearbySearch.

(* ================================================================= *)
(** ** controllers/orderController.js: the order table over time

    [getOrder], and what [createOrder], [updateOrderStatus] and
    [cancelOrder] keep and do when they follow one another. *)

Module OrderLifecycle.

Import PrimFloat.
Import Store.
Import OrderController.
Local Open Scope Z_scope.

(** The 200 body of [getOrder]: the order with its items included. *)
Record orderView : Type := mkOrderView
  { view_order : order;
    view_items : list orderItem }.

(** [getOrder]: the [where] has the id, and the caller's id unless the
    caller is an ADMIN. *)
Definition getOrder (d : db) (user : principal) (id : Z) : result orderView :=
  match find (fun o => (order_id o =? id) &&
                       match role user with
                       | ADMIN => true
                       | _ => userId o =? uid user
                       end)
             (orders d) with
  | None => Failure OrderNotFound
  | Some order =>
      Success 200
        {| view_order := order;
           view_items :=
             filter (fun it => oi_orderId it =? order_id order) (orderItems d) |}
  end.

(** The integrity of the order tables: ids are a key of the order table,
    the id sequence is ahead of every stored id, and every order item
    belongs to a stored order. *)
Definition keyed (d : db) : Prop :=
  NoDup (map order_id (orders d)) /\
  Forall (fun o => order_id o < nextOrderId d) (orders d) /\
  Forall (fun it => In (oi_orderId it) (map order_id (orders d))) (orderItems d).


(** Carts for the catalogue of [OrderController]: two soups, then an item
    that is not on the menu, then a tea; two soups and no tea at all; and a
    cart of two soups paid by card. *)
Definition cart_of (items : list cartLine) (m : option PaymentMethod) : createBody :=
  {| body_hotelId := 1; body_deliveryAddress := "4 Harbour Road";
     body_items := items;
     body_deliveryTime := None; body_specialInstructions := None;
     body_paymentMethod := m |}.

Definition two_soups : cartLine := {| menuItemId := 11; quantity := 2%float |}.
Definition off_menu : cartLine := {| menuItemId := 99; quantity := 1%float |}.
Definition one_tea : cartLine := {| menuItemId := 12; quantity := 1%float |}.
Definition no_tea : cartLine := {| menuItemId := 12; quantity := 0%float |}.

(** *** Rewriting one row *)

Lemma map_id_update_where (p : order -> bool) (f : order -> order) (os : list order) :
  (forall o, order_id (f o) = order_id o) ->
  map order_id (update_where p f os) = map order_id os.
Proof.
  intros Hf. induction os as [| x os IH]; simpl; [reflexivity|].
  destruct (p x); simpl; [now rewrite Hf | now rewrite IH].
Qed.

Lemma Forall_update_where (P : order -> Prop) (p : order -> bool)
    (f : order -> order) (os : list order) :
  (forall o, P o -> P (f o)) -> Forall P os -> Forall P (update_where p f os).
Proof.
  intros Hf H. induction H as [| x os Hx Hos IH]; simpl; [constructor|].
  destruct (p x); constructor; auto.
Qed.


Lemma keyed_set_orders d (f : order -> order) id :
  (forall o, order_id (f o) = order_id o) ->
  keyed d ->
  keyed (set_orders d (update_where (fun o => order_id o =? id) f (orders d))).
Proof.
  intros Hf (Hnd & Hlt & Hfk). unfold keyed. simpl.
  rewrite map_id_update_where by exact Hf.
  repeat split; try assumption.
  apply Forall_update_where; [|exact Hlt]. intros o Ho. now rewrite Hf.
Qed.

Lemma find_fresh_snoc (p : order -> bool) (os : list order) (o : order) :
  (forall x, In x os -> p x = false) -> p o = true ->
  find p (os ++ [o]) = Some o.
Proof.
  intros Hos Ho. induction os as [| x os IH]; simpl.
  - now rewrite Ho.
  - rewrite (Hos x) by (now left). apply IH. intros y Hy. apply Hos. now right.
Qed.

(** *** What [createOrder] leaves in the tables *)

(** Either an error response and the tables as they were, or one order
    row and its item rows appended, whatever the payment step then does. *)
Lemma createOrder_stored d caller body num env r d' :
  createOrder d caller body num env = (r, d') ->
  (exists f, r = Failure f /\ d' = d) \/
  (exists o items,
     orders d' = orders d ++ [o] /\
     orderItems d' = orderItems d ++ items /\
     hotels d' = hotels d /\ menuItems d' = menuItems d /\
     reviews d' = reviews d /\ nextReviewId d' = nextReviewId d /\
     nextOrderId d' = nextOrderId d + 1 /\
     order_id o = nextOrderId d /\ userId o = uid caller /\
     status o = PENDING /\ paymentStatus o = "PENDING"%string /\
     Forall (fun it => oi_orderId it = order_id o) items /\
     (r = Thrown \/
      exists paid, r = Success 201 {| created_order := o;
                                      created_items := items;
                                      created_payment := Some paid |})).
Proof.
  unfold createOrder.
  destruct (find _ (hotels d)) as [h|]; [|intros [= <- <-]; left; eauto].
  destruct (priceItems _ _ _ _) as [e | [t ls]];
    [intros [= <- <-]; left; eauto|].
  destruct (t <? minOrderAmount h)%float; [intros [= <- <-]; left; eauto|].
  assert (Hitems : forall id, Forall (fun it => oi_orderId it = id)
                                (map (with_orderId id) ls)).
  { intros id. apply Forall_forall. intros it Hin.
    apply in_map_iff in Hin. destruct Hin as (pl & <- & _). reflexivity. }
  destruct (processPayment _ _) as [paid|]; intros [= <- <-]; right;
    eexists; eexists; simpl;
    repeat (split; [reflexivity|]);
    (split; [apply Hitems|]); eauto.
Qed.

Lemma fresh_id_not_stored d :
  keyed d -> ~ In (nextOrderId d) (map order_id (orders d)).
Proof.
  intros (_ & Hlt & _) Hin. apply in_map_iff in Hin.
  destruct Hin as (o & Ho & Hin). rewrite Forall_forall in Hlt.
  specialize (Hlt o Hin). lia.
Qed.

Lemma NoDup_app_one {A : Type} (l : list A) (x : A) :
  NoDup l -> ~ In x l -> NoDup (l ++ [x]).
Proof.
  intros Hl Hx. induction Hl as [| y l Hy Hl IH]; simpl.
  - constructor; [intros [] | constructor].
  - constructor.
    + rewrite in_app_iff. simpl. intros [H | [H | []]]; [contradiction|].
      subst. apply Hx. now left.
    + apply IH. intros H. apply Hx. now right.
Qed.

Lemma keyed_after_create d (o : order) (items : list orderItem) d' :
  keyed d ->
  orders d' = orders d ++ [o] -> orderItems d' = orderItems d ++ items ->
  nextOrderId d' = nextOrderId d + 1 -> order_id o = nextOrderId d ->
  Forall (fun it => oi_orderId it = order_id o) items ->
  keyed d'.
Proof.
  intros Hk Ho Hi Hn Hid Hitems.
  assert (Hfresh := fresh_id_not_stored d Hk).
  destruct Hk as (Hnd & Hlt & Hfk). unfold keyed.
  rewrite Ho, Hi, Hn, map_app. simpl. repeat split.
  - apply NoDup_app_one; [exact Hnd | now rewrite Hid].
  - apply Forall_app. split.
    + eapply Forall_impl; [|exact Hlt]. simpl. intros; lia.
    + constructor; [lia | constructor].
  - apply Forall_app. split.
    + eapply Forall_impl; [|exact Hfk]. simpl. intros it Hin.
      apply in_or_app. now left.
    + eapply Forall_impl; [|exact Hitems]. simpl. intros it ->.
      apply in_or_app. right. now left.
Qed.

(** The integrity of the order tables survives every request to the three
    writing handlers, whatever they answer: ids stay a key, the id
    sequence stays ahead of the stored ids, and every order item keeps
    belonging to a stored order. *)
Theorem order_handlers_keep_keyed d :
  keyed d ->
  (forall caller body num env, keyed (snd (createOrder d caller body num env))) /\
  (forall user id st notes, keyed (snd (updateOrderStatus d user id st notes))) /\
  (forall user id, keyed (snd (cancelOrder d user id))).
Proof.
  intros Hk. split; [|split].
  - intros caller body num env.
    destruct (createOrder d caller body num env) as [r d'] eqn:E. simpl.
    apply createOrder_stored in E.
    destruct E as [(f & _ & ->) | (o & items & Ho & Hi & _ & _ & _ & _ & Hn & Hid & _ & _ & _ & Hitems & _)];
      [exact Hk|].
    now apply (keyed_after_create d o items d').
  - intros user id st notes. unfold updateOrderStatus.
    destruct (find _ (orders d)) as [o|]; [|exact Hk].
    destruct (_ && _); [exact Hk|]. simpl.
    apply keyed_set_orders; [reflexivity | exact Hk].
  - intros user id. unfold cancelOrder.
    destruct (find _ (orders d)) as [o|]; [|exact Hk].
    destruct (find _ (orders d)) as [row|]; [|exact Hk]. simpl.
    apply keyed_set_orders; [reflexivity | exact Hk].
Qed.

(** *** Carts that are turned down *)

Lemma priceItems_prefix menu pre :
  cart_valid menu pre = true ->
  forall rest acc ls,
  exists acc' ls',
    priceItems menu (pre ++ rest) acc ls = priceItems menu rest acc' ls'.
Proof.
  induction pre as [| item pre IH]; simpl; intros Hv rest acc ls.
  - eauto.
  - apply andb_prop in Hv. destruct Hv as [H1 H2].
    destruct (find_item menu item) as [m|]; [|discriminate].
    destruct (quantity item <? 1)%float; [discriminate|].
    apply IH. exact H2.
Qed.

(** The first line of the cart that is not valid decides the answer: 400
    for an item that is not on the hotel's available menu, with the id the
    cart gave, or 400 for a quantity below 1, with the item's name; in both
    cases nothing is stored, whatever follows that line in the cart. *)
Theorem createOrder_first_invalid_line d caller body num env h pre line post :
  find_hotel d (body_hotelId body) = Some h ->
  body_items body = pre ++ line :: post ->
  cart_valid (available_menu d h) pre = true ->
  (find_item (available_menu d h) line = None ->
   createOrder d caller body num env =
     (Failure (MenuItemNotAvailable (menuItemId line)), d)) /\
  (forall m,
     find_item (available_menu d h) line = Some m ->
     (quantity line <? 1)%float = true ->
     createOrder d caller body num env = (Failure (InvalidQuantity (name m)), d)).
Proof.
  intros Hh Hitems Hpre.
  destruct (priceItems_prefix _ _ Hpre (line :: post) 0%float [])
    as (acc & ls & Hp).
  unfold find_hotel in Hh.
  split; [intros Hnone | intros m Hsome Hq];
    unfold createOrder; rewrite Hh; fold (available_menu d h);
    rewrite Hitems, Hp; simpl.
  - now rewrite Hnone.
  - now rewrite Hsome, Hq.
Qed.

(** Paying by card when Stripe is not configured stores the order and then
    fails: the handler ends in an exception, yet the order row, PENDING and
    the caller's, is in the table.  With cash or mobile money, or with
    Stripe configured, the handler never ends in an exception. *)
Theorem createOrder_card_without_stripe d caller body num env h :
  (body_paymentMethod body <> Some CARD \/ stripeConfigured env = true ->
   fst (createOrder d caller body num env) <> Thrown) /\
  (find_hotel d (body_hotelId body) = Some h ->
   cart_valid (available_menu d h) (body_items body) = true ->
   (cart_subtotal (available_menu d h) (body_items body)
      <? minOrderAmount h)%float = false ->
   body_paymentMethod body = Some CARD -> stripeConfigured env = false ->
   exists o d',
     createOrder d caller body num env = (Thrown, d') /\
     orders d' = orders d ++ [o] /\
     order_id o = nextOrderId d /\ userId o = uid caller /\
     status o = PENDING /\
     totalAmount o =
       (cart_subtotal (available_menu d h) (body_items body) + deliveryFee h)%float).
Proof.
  split.
  - intros Hpay. unfold createOrder.
    destruct (find _ (hotels d)) as [h0|]; [|discriminate].
    destruct (priceItems _ _ _ _) as [e | [t ls]]; [discriminate|].
    destruct (t <? minOrderAmount h0)%float; [discriminate|].
    unfold processPayment.
    destruct (body_paymentMethod body) as [[| |]|]; try discriminate.
    destruct Hpay as [Hpay | Hpay]; [congruence|].
    rewrite Hpay. discriminate.
  - intros Hh Hv Hmin Hcard Hstripe.
    unfold createOrder. unfold find_hotel in Hh. rewrite Hh.
    fold (available_menu d h).
    destruct (priceItems_valid _ _ 0%float [] Hv) as (ls & ->).
    unfold cart_subtotal in Hmin |- *. rewrite Hmin, Hcard. simpl.
    rewrite Hstripe. eexists. eexists. split; [reflexivity|].
    simpl. auto 10.
Qed.

(** *** Reading orders *)

Lemma find_all_false {A : Type} (p : A -> bool) (l : list A) :
  (forall x, In x l -> p x = false) -> find p l = None.
Proof.
  induction l as [| x l IH]; simpl; intros H; [reflexivity|].
  rewrite (H x) by (now left). apply IH. intros y Hy. apply H. now right.
Qed.

Lemma filter_all_false {A : Type} (p : A -> bool) (l : list A) :
  Forall (fun x => p x = false) l -> filter p l = [].
Proof.
  induction 1 as [| x l Hx Hl IH]; simpl; [reflexivity|]. now rewrite Hx.
Qed.

Lemma filter_all_true {A : Type} (p : A -> bool) (l : list A) :
  Forall (fun x => p x = true) l -> filter p l = l.
Proof.
  induction 1 as [| x l Hx Hl IH]; simpl; [reflexivity|]. now rewrite Hx, IH.
Qed.

(** [getOrder] answers with a stored order that has the id asked for and,
    unless the caller is an ADMIN, belongs to the caller; the items it
    includes are stored items of that order. *)
Theorem getOrder_own_or_admin d user id code v :
  getOrder d user id = Success code v ->
  In (view_order v) (orders d) /\
  order_id (view_order v) = id /\
  (role user = ADMIN \/ userId (view_order v) = uid user) /\
  Forall (fun it => In it (orderItems d) /\ oi_orderId it = id) (view_items v).
Proof.
  unfold getOrder.
  destruct (find _ (orders d)) as [o|] eqn:Hf; [|discriminate].
  intros [= _ <-]. simpl.
  apply find_some in Hf. destruct Hf as [Hin Hp].
  apply andb_prop in Hp. destruct Hp as [Hid Hown].
  apply Z.eqb_eq in Hid.
  split; [exact Hin|]. split; [exact Hid|]. split.
  - destruct (role user); [right | right | left];
      try apply Z.eqb_eq; auto.
  - apply Forall_forall. intros it Hit. apply filter_In in Hit.
    destruct Hit as [Hit Heq]. apply Z.eqb_eq in Heq. split; [exact Hit | lia].
Qed.

Lemma stored_ids_differ d (x : order) :
  keyed d -> In x (orders d) -> (order_id x =? nextOrderId d) = false.
Proof.
  intros (_ & Hlt & _) Hin. rewrite Forall_forall in Hlt.
  specialize (Hlt x Hin). apply Z.eqb_neq. lia.
Qed.

(** An order that has just been created is what [getOrder] returns to its
    owner, with exactly the items created with it; a caller who is neither
    the owner nor an ADMIN is told the order does not exist. *)
Theorem createOrder_then_getOrder d caller body num env code c d' :
  keyed d ->
  createOrder d caller body num env = (Success code c, d') ->
  getOrder d' caller (order_id (created_order c)) =
    Success 200 {| view_order := created_order c;
                   view_items := created_items c |} /\
  (forall other,
     role other <> ADMIN -> uid other <> uid caller ->
     getOrder d' other (order_id (created_order c)) = Failure OrderNotFound).
Proof.
  intros Hk Hrun. apply createOrder_stored in Hrun.
  destruct Hrun as [(f & Hf & _) | (o & items & Ho & Hi & _ & _ & _ & _ & _ & Hid & Hu & _ & _ & Hitems & Hr)];
    [discriminate|].
  destruct Hr as [Hr | (paid & Hr)]; [discriminate|].
  injection Hr as _ ->. simpl.
  assert (Hold : forall x, In x (orders d) -> (order_id x =? order_id o) = false).
  { intros x Hx. rewrite Hid. now apply stored_ids_differ. }
  split.
  - unfold getOrder. rewrite Ho.
    rewrite (find_fresh_snoc _ (orders d) o).
    + f_equal. f_equal. rewrite Hi, filter_app.
      rewrite filter_all_false, filter_all_true; [reflexivity | |].
      * eapply Forall_impl; [|exact Hitems]. simpl. intros it ->.
        apply Z.eqb_refl.
      * destruct Hk as (_ & Hlt & Hfk).
        eapply Forall_impl; [|exact Hfk]. simpl. intros it Hin.
        apply in_map_iff in Hin. destruct Hin as (x & Hx & Hin).
        rewrite <- Hx. now apply Hold.
    + intros x Hx. now rewrite (Hold x Hx).
    + rewrite Z.eqb_refl, Hu, Z.eqb_refl. now destruct (role caller).
  - intros other Hrole Hother. unfold getOrder. rewrite Ho.
    rewrite find_all_false; [reflexivity|].
    intros x Hx. apply in_app_or in Hx. destruct Hx as [Hx | [<- | []]].
    + now rewrite (Hold x Hx).
    + rewrite Z.eqb_refl, Hu. simpl.
      destruct (role other); try congruence; apply Z.eqb_neq; congruence.
Qed.

(** *** Cancelling *)

(** An order that has just been created can be cancelled by its owner:
    the answer is 200 and the order is stored CANCELLED and REFUNDED. *)
Theorem createOrder_then_cancelOrder d caller body num env code c d' :
  keyed d ->
  createOrder d caller body num env = (Success code c, d') ->
  exists d'',
    cancelOrder d' caller (order_id (created_order c)) =
      (Success 200 (cancelled (created_order c)), d'') /\
    find (fun o => order_id o =? order_id (created_order c)) (orders d'') =
      Some (cancelled (created_order c)) /\
    status (cancelled (created_order c)) = CANCELLED /\
    paymentStatus (cancelled (created_order c)) = "REFUNDED"%string.
Proof.
  intros Hk Hrun. apply createOrder_stored in Hrun.
  destruct Hrun as [(f & Hf & _) | (o & items & Ho & _ & _ & _ & _ & _ & _ & Hid & Hu & Hst & _ & _ & Hr)];
    [discriminate|].
  destruct Hr as [Hr | (paid & Hr)]; [discriminate|].
  injection Hr as _ ->. simpl.
  assert (Hold : forall x, In x (orders d) -> (order_id x =? order_id o) = false).
  { intros x Hx. rewrite Hid. now apply stored_ids_differ. }
  assert (Hfind : find (fun x => order_id x =? order_id o) (orders d') = Some o).
  { rewrite Ho. apply find_fresh_snoc; [exact Hold | apply Z.eqb_refl]. }
  assert (Hmine : find (fun x => (order_id x =? order_id o) &&
                                 (userId x =? uid caller) &&
                                 cancellable (status x)) (orders d') = Some o).
  { rewrite Ho. apply find_fresh_snoc.
    - intros x Hx. now rewrite (Hold x Hx).
    - now rewrite Z.eqb_refl, Hu, Z.eqb_refl, Hst. }
  unfold cancelOrder. rewrite Hmine, Hfind.
  eexists. split; [reflexivity|].
  split; [|split; reflexivity].
  simpl orders. apply find_id_after_update; [reflexivity | exact Hfind].
Qed.

Lemma cancelOrder_success d user id code o' d' :
  cancelOrder d user id = (Success code o', d') ->
  exists row,
    find (fun o => order_id o =? id) (orders d) = Some row /\
    o' = cancelled row /\
    d' = set_orders d
           (update_where (fun o => order_id o =? id) cancelled (orders d)) /\
    find (fun o => order_id o =? id) (orders d') = Some (cancelled row).
Proof.
  unfold cancelOrder.
  destruct (find _ (orders d)) as [x|]; [|discriminate].
  destruct (find (fun o => order_id o =? id) (orders d)) as [row|] eqn:Hf;
    [|discriminate].
  intros [= _ <- <-]. exists row. repeat split.
  simpl orders. apply find_id_after_update; [reflexivity | exact Hf].
Qed.

(** A cancellation cannot be repeated: once [cancelOrder] has succeeded,
    the same request is answered 404 and changes nothing. *)
Theorem cancelOrder_not_repeatable d user id code o' d' :
  NoDup (map order_id (orders d)) ->
  cancelOrder d user id = (Success code o', d') ->
  status o' = CANCELLED /\
  cancelOrder d' user id = (Failure NotFoundOrNotCancellable, d').
Proof.
  intros Hnd Hrun.
  destruct (cancelOrder_success _ _ _ _ _ _ Hrun) as (row & _ & -> & Hd' & Hf').
  split; [reflexivity|].
  assert (Hnd' : NoDup (map order_id (orders d'))).
  { rewrite Hd'. simpl. now rewrite map_id_update_where. }
  unfold cancelOrder.
  rewrite (find_pointwise _
             (fun o => (order_id o =? id) &&
                       ((userId o =? uid user) && cancellable (status o))))
    by (intros a; now rewrite andb_assoc).
  rewrite (find_key_where _ id (orders d') Hnd'), Hf'. simpl.
  now rewrite andb_false_r.
Qed.

(** A status update after a cancellation puts the order back into any
    status, and the order stays REFUNDED: [updateOrderStatus] never
    touches the payment status. *)
Theorem cancelOrder_then_updateOrderStatus d user id code o' d' admin st notes :
  cancelOrder d user id = (Success code o', d') ->
  role admin = ADMIN ->
  exists o'' d'',
    updateOrderStatus d' admin id st notes = (Success 200 o'', d'') /\
    find (fun o => order_id o =? id) (orders d'') = Some o'' /\
    status o'' = st /\
    paymentStatus o'' = "REFUNDED"%string /\
    userId o'' = userId o'.
Proof.
  intros Hrun Hrole.
  destruct (cancelOrder_success _ _ _ _ _ _ Hrun) as (row & _ & -> & _ & Hf').
  rewrite (updateOrderStatus_found _ _ _ _ _ _ Hf').
  unfold other_hotel_admin. rewrite Hrole. simpl andb. cbv iota.
  eexists. eexists. split; [reflexivity|].
  split; [now apply updateOrderStatus_stored|]. simpl. auto.
Qed.


(** *** The theorems at the catalogue *)

Lemma catalogue_keyed : keyed catalogue.
Proof. unfold keyed. simpl. repeat split; constructor. Qed.

Lemma ordered_keyed_tables s : keyed (ordered s).
Proof.
  unfold keyed. simpl. repeat split.
  - constructor; [intros [] | constructor].
  - constructor; [simpl; lia | constructor].
  - constructor; [left; reflexivity | constructor].
Qed.

(** [order_handlers_keep_keyed] at the tables with alice's order. *)
Lemma order_handlers_keep_keyed_witness :
  keyed (snd (createOrder (ordered PENDING) bob (cart 11 2%float)
                "ORD-20240106-Z81QX7731" payments)) /\
  keyed (snd (updateOrderStatus (ordered PENDING) cook 1 CONFIRMED None)) /\
  keyed (snd (cancelOrder (ordered PENDING) alice 1)).
Proof.
  destruct (order_handlers_keep_keyed (ordered PENDING)
              (ordered_keyed_tables PENDING)) as (H1 & H2 & H3).
  split; [apply H1 | split; [apply H2 | apply H3]].
Defined.

(** [createOrder_first_invalid_line] at a cart whose second line is off the
    menu, and at a cart whose second line has quantity 0. *)
Lemma createOrder_first_invalid_line_witness :
  createOrder catalogue alice (cart_of [two_soups; off_menu; one_tea] None)
    "ORD-20240105-K3F9A0042" payments
    = (Failure (MenuItemNotAvailable 99), catalogue) /\
  createOrder catalogue alice (cart_of [two_soups; no_tea] None)
    "ORD-20240105-K3F9A0042" payments
    = (Failure (InvalidQuantity "Tea"), catalogue).
Proof.
  split.
  - apply (proj1 (createOrder_first_invalid_line catalogue alice
                    (cart_of [two_soups; off_menu; one_tea] None)
                    "ORD-20240105-K3F9A0042" payments bistro
                    [two_soups] off_menu [one_tea] eq_refl eq_refl eq_refl)).
    reflexivity.
  - apply (proj2 (createOrder_first_invalid_line catalogue alice
                    (cart_of [two_soups; no_tea] None)
                    "ORD-20240105-K3F9A0042" payments bistro
                    [two_soups] no_tea [] eq_refl eq_refl eq_refl) tea);
      reflexivity.
Defined.

(** [createOrder_card_without_stripe] at two soups paid by card, and paid
    in cash. *)
Lemma createOrder_card_without_stripe_witness :
  fst (createOrder catalogue alice (cart_of [two_soups] (Some CASH))
         "ORD-20240105-K3F9A0042" payments) <> Thrown /\
  exists o d',
    createOrder catalogue alice (cart_of [two_soups] (Some CARD))
      "ORD-20240105-K3F9A0042" payments = (Thrown, d') /\
    orders d' = orders catalogue ++ [o] /\
    order_id o = 1 /\ userId o = 7 /\ status o = PENDING /\
    totalAmount o = total_14_99.
Proof.
  split.
  - apply (proj1 (createOrder_card_without_stripe catalogue alice
                    (cart_of [two_soups] (Some CASH))
                    "ORD-20240105-K3F9A0042" payments bistro)).
    left. discriminate.
  - apply (proj2 (createOrder_card_without_stripe catalogue alice
                    (cart_of [two_soups] (Some CARD))
                    "ORD-20240105-K3F9A0042" payments bistro));
      reflexivity.
Defined.

(** [getOrder_own_or_admin] at alice reading her order. *)
Lemma getOrder_own_or_admin_witness :
  getOrder (ordered PENDING) alice 1 =
    Success 200 {| view_order := first_order PENDING; view_items := first_items |} /\
  In (first_order PENDING) (orders (ordered PENDING)) /\
  (role alice = ADMIN \/ userId (first_order PENDING) = uid alice).
Proof.
  split; [reflexivity|].
  destruct (getOrder_own_or_admin (ordered PENDING) alice 1 200
              {| view_order := first_order PENDING; view_items := first_items |}
              eq_refl) as (Hin & _ & Hown & _).
  split; [exact Hin | exact Hown].
Defined.

(** [createOrder_then_getOrder] at alice's order of two soups, read by
    alice and by bob. *)
Lemma createOrder_then_getOrder_witness :
  getOrder (ordered PENDING) alice 1 =
    Success 200 {| view_order := first_order PENDING; view_items := first_items |} /\
  getOrder (ordered PENDING) bob 1 = Failure OrderNotFound.
Proof.
  destruct (createOrder_then_getOrder catalogue alice (cart 11 2%float)
              "ORD-20240105-K3F9A0042" payments 201
              {| created_order := first_order PENDING;
                 created_items := first_items;
                 created_payment := Some true |}
              (ordered PENDING) catalogue_keyed eq_refl) as [Hown Hother].
  split; [exact Hown|].
  apply (Hother bob); discriminate.
Defined.

(** [createOrder_then_cancelOrder] at alice's order of two soups. *)
Lemma createOrder_then_cancelOrder_witness :
  exists d'',
    cancelOrder (ordered PENDING) alice 1 =
      (Success 200 (cancelled (first_order PENDING)), d'') /\
    find (fun o => order_id o =? 1) (orders d'') =
      Some (cancelled (first_order PENDING)) /\
    status (cancelled (first_order PENDING)) = CANCELLED /\
    paymentStatus (cancelled (first_order PENDING)) = "REFUNDED"%string.
Proof.
  apply (createOrder_then_cancelOrder catalogue alice (cart 11 2%float)
           "ORD-20240105-K3F9A0042" payments 201
           {| created_order := first_order PENDING;
              created_items := first_items;
              created_payment := Some true |}
           (ordered PENDING) catalogue_keyed eq_refl).
Defined.

(** [cancelOrder_not_repeatable] at alice cancelling twice. *)
Lemma cancelOrder_not_repeatable_witness :
  status (cancelled (first_order PENDING)) = CANCELLED /\
  cancelOrder (snd (cancelOrder (ordered PENDING) alice 1)) alice 1
    = (Failure NotFoundOrNotCancellable, snd (cancelOrder (ordered PENDING) alice 1)).
Proof.
  apply (cancelOrder_not_repeatable (ordered PENDING) alice 1 200
           (cancelled (first_order PENDING))
           (snd (cancelOrder (ordered PENDING) alice 1))).
  - apply ordered_keyed_tables.
  - reflexivity.
Defined.

(** [cancelOrder_then_updateOrderStatus] at alice's cancelled order, which
    an ADMIN confirms. *)
Lemma cancelOrder_then_updateOrderStatus_witness :
  exists o'' d'',
    updateOrderStatus (snd (cancelOrder (ordered PENDING) alice 1)) root 1
      CONFIRMED None = (Success 200 o'', d'') /\
    find (fun o => order_id o =? 1) (orders d'') = Some o'' /\
    status o'' = CONFIRMED /\
    paymentStatus o'' = "REFUNDED"%string /\
    userId o'' = userId (cancelled (first_order PENDING)).
Proof.
  apply (cancelOrder_then_updateOrderStatus (ordered PENDING) alice 1 200
           (cancelled (first_order PENDING))
           (snd (cancelOrder (ordered PENDING) alice 1)) root CONFIRMED None);
    reflexivity.
Defined.


End OrderLifecycle.

(* ================================================================= *)
(** ** routes/order.routes.js and controllers/orderController.js:
       [GET /api/orders], the caller's orders page by page *)

Module OrderQueries.

Import PrimFloat.
Import Store.
Local Open Scope Z_scope.

(** [req.query]: [page] and [limit] are integers when present, [sort] is
    any string, [status] a status name. *)
Record listQuery : Type := mkListQuery
  { q_page : option Z;
    q_limit : option Z;
    q_sort : option string;
    q_status : option OrderStatus }.

(** The 200 body of [getMyOrders]. *)
Record page : Type := mkPage
  { count : nat;
    total : nat;
    totalPages : Z;
    currentPage : Z;
    page_orders : list order }.

(** What the route answers: the 400 of [validate], with the field of the
    first rule that failed and its message, or the page. *)
Inductive listing : Type :=
| ValidationFailed (field message : string)
| Listed (p : page).

(** The three rules of [queryRules.pagination]; each is skipped when its
    parameter is absent. *)
Definition page_rule (q : listQuery) : option (string * string) :=
  match q_page q with
  | Some p =>
      if p <? 1 then Some ("page", "Page must be a positive integer")%string
      else None
  | None => None
  end.

Definition limit_rule (q : listQuery) : option (string * string) :=
  match q_limit q with
  | Some l =>
      if (l <? 1) || (100 <? l)
      then Some ("limit", "Limit must be between 1 and 100")%string
      else None
  | None => None
  end.

Definition sort_rule (q : listQuery) : option (string * string) :=
  match q_sort q with
  | Some s =>
      if String.eqb s "asc" || String.eqb s "desc" then None
      else Some ("sort", "Sort must be asc or desc")%string
  | None => None
  end.

(** The loop of [validate]: the rules run in order, up to the first one
    that reports an error. *)
Fixpoint validate {Q : Type} (rules : list (Q -> option (string * string)))
    (q : Q) : option (string * string) :=
  match rules with
  | [] => None
  | rule :: rest =>
      match rule q with
      | Some e => Some e
      | None => validate rest q
      end
  end.

Definition pagination : list (listQuery -> option (string * string)) :=
  [page_rule; limit_rule; sort_rule].

(** [skip] and [take] of [findMany]. *)
Definition slice {A : Type} (skip take : Z) (l : list A) : list A :=
  firstn (Z.to_nat take) (skipn (Z.to_nat skip) l).

(** [Math.ceil(total / limit)] for a count and a limit of at least 1. *)
Definition ceil_div (total limit : Z) : Z := - ((- total) / limit).

(** The [where] of [getMyOrders]: the caller's orders, of the status asked
    for if one is. *)
Definition mine (user : principal) (status : option OrderStatus) (o : order) : bool :=
  (userId o =? uid user) &&
  match status with
  | Some s => status_eqb (Store.status o) s
  | None => true
  end.

(** [getMyOrders].  [arrange] is the [orderBy] of the query: the sort by
    the column and direction the request names, which the database
    performs. *)
Definition getMyOrders (arrange : list order -> list order)
    (d : db) (user : principal) (q : listQuery) : page :=
  let page := match q_page q with Some p => p | None => 1 end in
  let limit := match q_limit q with Some l => l | None => 10 end in
  let skip := (page - 1) * limit in
  let matching := filter (mine user (q_status q)) (orders d) in
  let orders := slice skip limit (arrange matching) in
  let total := List.length matching in
  {| count := List.length orders;
     total := total;
     totalPages := ceil_div (Z.of_nat total) limit;
     currentPage := page;
     page_orders := orders |}.

(** [router.get('/', protect, validate(queryRules.pagination), getMyOrders)] *)
Definition listMyOrders (arrange : list order -> list order)
    (d : db) (user : principal) (q : listQuery) : listing :=
  match validate pagination q with
  | Some (field, message) => ValidationFailed field message
  | None => Listed (getMyOrders arrange d user q)
  end.

(** The orders of an answer; none for a 400. *)
Definition orders_of (r : listing) : list order :=
  match r with
  | Listed p => page_orders p
  | ValidationFailed _ _ => []
  end.

(** The query for one page of a given size. *)
Definition page_query (limit : Z) (status : option OrderStatus) (n : nat) : listQuery :=
  {| q_page := Some (Z.of_nat n); q_limit := Some limit;
     q_sort := None; q_status := status |}.

(** Three orders of user 7 and one of user 8, for the pages below. *)
Definition order_no (i owner : Z) (s : OrderStatus) : order :=
  {| order_id := i; orderNumber := "ORD-20240105-K3F9A0042";
     userId := owner; order_hotelId := 1; totalAmount := 12%float;
     deliveryAddress := "4 Harbour Road"; deliveryTime := None;
     status := s; paymentMethod := CASH; paymentStatus := "PENDING";
     specialInstructions := None; deliveryNotes := None |}.

Definition four_orders : db :=
  {| hotels := []; menuItems := [];
     orders := [order_no 1 7 DELIVERED; order_no 2 8 PENDING;
                order_no 3 7 PENDING; order_no 4 7 CONFIRMED];
     orderItems := []; reviews := [];
     nextOrderId := 5; nextReviewId := 1 |}.

Definition reader : principal := {| uid := 7; role := USER; hotelId := None |}.

Definition newest_first (l : list order) : list order := rev l.

(** *** Slices and pages *)

Lemma ceil_div_bounds (total limit : Z) :
  0 < limit -> total <= ceil_div total limit * limit < total + limit.
Proof.
  intros Hl. unfold ceil_div.
  generalize (Z.div_mod (- total) limit) (Z.mod_pos_bound (- total) limit Hl).
  intros Hdm Hb. nia.
Qed.

Lemma slice_length_le {A : Type} (skip take : Z) (l : list A) :
  0 <= take -> Z.of_nat (List.length (slice skip take l)) <= take.
Proof.
  intros Ht. unfold slice. rewrite length_firstn. lia.
Qed.

Lemma In_slice {A : Type} (skip take : Z) (l : list A) (x : A) :
  In x (slice skip take l) -> In x l.
Proof.
  unfold slice. intros H.
  set (rest := skipn (Z.to_nat skip) l) in *.
  assert (Hrest : In x rest).
  { rewrite <- (firstn_skipn (Z.to_nat take) rest). apply in_or_app. now left. }
  rewrite <- (firstn_skipn (Z.to_nat skip) l). apply in_or_app. now right.
Qed.

(** The first [n] slices of size [k] of a list with at most [n * k]
    elements, one after the other, are the list. *)
Lemma slices_concat {A : Type} (k : nat) (n : nat) :
  forall l : list A,
    (0 < k)%nat -> (List.length l <= n * k)%nat ->
    List.concat (map (fun i => firstn k (skipn (i * k) l)) (seq 0 n)) = l.
Proof.
  induction n as [| n IH]; intros l Hk Hlen; simpl.
  - destruct l; [reflexivity | simpl in Hlen; lia].
  - transitivity (firstn k l ++ skipn k l); [|apply firstn_skipn].
    f_equal. rewrite <- seq_shift, map_map.
    assert (Hrest : (List.length (skipn k l) <= n * k)%nat)
      by (rewrite length_skipn; simpl in Hlen; lia).
    etransitivity; [|apply (IH (skipn k l) Hk Hrest)].
    f_equal. apply map_ext. intros i.
    rewrite skipn_skipn. f_equal. f_equal. lia.
Qed.

Lemma validate_page_query limit status n :
  (1 <= n)%nat -> 1 <= limit <= 100 ->
  validate pagination (page_query limit status n) = None.
Proof.
  intros Hn [H1 H2]. unfold pagination, validate, page_rule, limit_rule, sort_rule.
  simpl.
  assert (E1 : (Z.of_nat n <? 1) = false) by (apply Z.ltb_ge; lia).
  assert (E2 : (limit <? 1) = false) by (apply Z.ltb_ge; lia).
  assert (E3 : (100 <? limit) = false) by (apply Z.ltb_ge; lia).
  now rewrite E1, E2, E3.
Qed.

Lemma validate_pagination_passed q :
  validate pagination q = None ->
  1 <= match q_page q with Some p => p | None => 1 end /\
  1 <= match q_limit q with Some l => l | None => 10 end <= 100.
Proof.
  unfold pagination, validate, page_rule, limit_rule.
  destruct (q_page q) as [p|], (q_limit q) as [l|]; simpl;
    repeat match goal with
           | |- context [?a <? ?b] => destruct (Z.ltb_spec a b); simpl
           end; intros Hpass; try discriminate; lia.
Qed.

Section Arranged.

Variable arrange : list order -> list order.
Hypothesis arrange_permutes : forall l, Permutation (arrange l) l.

(** Whatever the page, the size and the ordering asked for, [GET
    /api/orders] returns stored orders of the caller only, and only of the
    status asked for when one is. *)
Theorem listMyOrders_only_own (d : db) (user : principal) (q : listQuery) :
  Forall (fun o => In o (orders d) /\ userId o = uid user /\
                   forall s, q_status q = Some s -> status o = s)
         (orders_of (listMyOrders arrange d user q)).
Proof.
  unfold listMyOrders.
  destruct (validate pagination q) as [[field message]|]; simpl; [constructor|].
  apply Forall_forall. intros o Hin.
  apply In_slice in Hin.
  apply (Permutation_in _ (arrange_permutes _)) in Hin.
  apply filter_In in Hin. destruct Hin as [Hin Hm].
  unfold mine in Hm. apply andb_prop in Hm. destruct Hm as [Hu Hs].
  apply Z.eqb_eq in Hu. split; [exact Hin|]. split; [exact Hu|].
  intros s Hq. rewrite Hq in Hs. now apply status_eqb_eq.
Qed.

(** A page holds at most [limit] orders, 10 by default and never more than
    100; [total] counts the caller's matching orders, and [totalPages] is
    the least number of pages of that size that hold them all. *)
Theorem listMyOrders_page_size (d : db) (user : principal) (q : listQuery) (p : page) :
  listMyOrders arrange d user q = Listed p ->
  let limit := match q_limit q with Some l => l | None => 10 end in
  count p = List.length (page_orders p) /\
  Z.of_nat (count p) <= limit <= 100 /\
  total p = List.length (filter (mine user (q_status q)) (orders d)) /\
  Z.of_nat (total p) <= totalPages p * limit < Z.of_nat (total p) + limit.
Proof.
  unfold listMyOrders.
  destruct (validate pagination q) as [[field message]|] eqn:Hv; [discriminate|].
  intros [= <-]. apply validate_pagination_passed in Hv.
  destruct Hv as [Hp Hl]. simpl.
  split; [reflexivity|]. split; [|split; [reflexivity|]].
  - split; [apply slice_length_le; lia | lia].
  - apply ceil_div_bounds. lia.
Qed.

(** The pages of one size, from the first to page [totalPages], hold every
    matching order of the caller exactly once, in the order asked for. *)
Theorem listMyOrders_pages_partition
    (d : db) (user : principal) (limit : Z) (status : option OrderStatus) :
  1 <= limit <= 100 ->
  let matching := filter (mine user status) (orders d) in
  let pages := ceil_div (Z.of_nat (List.length matching)) limit in
  List.concat (map (fun n => orders_of (listMyOrders arrange d user
                                     (page_query limit status n)))
              (seq 1 (Z.to_nat pages)))
  = arrange matching.
Proof.
  intros Hl matching pages.
  assert (Hb := ceil_div_bounds (Z.of_nat (List.length matching)) limit).
  fold pages in Hb. lapply Hb; [clear Hb; intros Hb | lia].
  assert (Hpages : 0 <= pages) by nia.
  rewrite <- (slices_concat (Z.to_nat limit) (Z.to_nat pages) (arrange matching)).
  - rewrite <- seq_shift, map_map. f_equal. apply map_ext_in.
    intros i Hi. unfold listMyOrders.
    rewrite validate_page_query by lia.
    unfold getMyOrders, page_query, orders_of.
    cbn [q_page q_limit q_status page_orders].
    unfold slice. f_equal. f_equal.
    replace (Z.of_nat (S i) - 1) with (Z.of_nat i) by lia.
    rewrite Z2Nat.inj_mul by lia. now rewrite Nat2Z.id.
  - lia.
  - rewrite (Permutation_length (arrange_permutes matching)). nia.
Qed.

End Arranged.

(** *** The pages of user 7 *)

Lemma newest_first_permutes (l : list order) : Permutation (newest_first l) l.
Proof. apply Permutation_sym, Permutation_rev. Qed.

(** [listMyOrders_only_own] at the second page of two of user 7's orders. *)
Lemma listMyOrders_only_own_witness :
  Forall (fun o => In o (orders four_orders) /\ userId o = 7 /\
                   forall s, None = Some s -> status o = s)
         (orders_of (listMyOrders newest_first four_orders reader
                       (page_query 2 None 2))).
Proof.
  apply (listMyOrders_only_own newest_first newest_first_permutes
           four_orders reader (page_query 2 None 2)).
Defined.

(** [listMyOrders_page_size] at the first page of two. *)
Lemma listMyOrders_page_size_witness :
  listMyOrders newest_first four_orders reader (page_query 2 None 1) =
    Listed {| count := 2; total := 3; totalPages := 2; currentPage := 1;
              page_orders := [order_no 4 7 CONFIRMED; order_no 3 7 PENDING] |} /\
  (Z.of_nat 2 <= 2 <= 100) /\
  Z.of_nat 3 <= 2 * 2 < Z.of_nat 3 + 2.
Proof.
  split; [reflexivity|].
  destruct (listMyOrders_page_size newest_first four_orders reader
              (page_query 2 None 1) _ eq_refl) as (_ & Hc & _ & Ht).
  split; [exact Hc | exact Ht].
Defined.

(** [listMyOrders_pages_partition] at pages of two. *)
Lemma listMyOrders_pages_partition_witness :
  List.concat (map (fun n => orders_of (listMyOrders newest_first four_orders reader
                                          (page_query 2 None n)))
                   (seq 1 2))
  = [order_no 4 7 CONFIRMED; order_no 3 7 PENDING; order_no 1 7 DELIVERED].
Proof.
  apply (listMyOrders_pages_partition newest_first newest_first_permutes
           four_orders reader 2 None).
  lia.
Defined.

End OrderQueries.

(* ================================================================= *)
(** ** controllers/hotelController.js and controllers/menuController.js:
       switching a hotel or a menu item on and off *)

Module CatalogueSwitches.

Import PrimFloat.
Import Store.
Import OrderController.
Local Open Scope Z_scope.

(** What a toggle answers: 404, or 200 with its message and the updated
    row. *)
Inductive toggled (A : Type) : Type :=
| NotFound (message : string)
| Switched (message : string) (row : A).

Arguments NotFound {A} message.
Arguments Switched {A} message row.

(** [data: { isActive: .. }] *)
Definition with_isActive (b : bool) (h : hotel) : hotel :=
  {| hotel_id := hotel_id h; hotel_isActive := b;
     deliveryFee := deliveryFee h; minOrderAmount := minOrderAmount h |}.

(** [data: { isAvailable: .. }] *)
Definition with_isAvailable (b : bool) (m : menuItem) : menuItem :=
  {| item_id := item_id m; item_hotelId := item_hotelId m; name := name m;
     price := price m; isAvailable := b |}.

Definition set_hotels (d : db) (hs : list hotel) : db :=
  {| hotels := hs; menuItems := menuItems d; orders := orders d;
     orderItems := orderItems d; reviews := reviews d;
     nextOrderId := nextOrderId d; nextReviewId := nextReviewId d |}.

Definition set_menuItems (d : db) (ms : list menuItem) : db :=
  {| hotels := hotels d; menuItems := ms; orders := orders d;
     orderItems := orderItems d; reviews := reviews d;
     nextOrderId := nextOrderId d; nextReviewId := nextReviewId d |}.

(** [toggleHotelActive] *)
Definition toggleHotelActive (d : db) (id : Z) : toggled hotel * db :=
  match find (fun h => hotel_id h =? id) (hotels d) with
  | None => (NotFound "Hotel not found", d)
  | Some hotel =>
      let data := with_isActive (negb (hotel_isActive hotel)) in
      let updatedHotel := data hotel in
      (Switched (if hotel_isActive updatedHotel
                 then "Hotel activated successfully"
                 else "Hotel deactivated successfully") updatedHotel,
       set_hotels d (update_where (fun h => hotel_id h =? id) data (hotels d)))
  end.

(** [toggleMenuItemAvailability] *)
Definition toggleMenuItemAvailability (d : db) (id : Z) : toggled menuItem * db :=
  match find (fun m => item_id m =? id) (menuItems d) with
  | None => (NotFound "Menu item not found", d)
  | Some menuItem =>
      let data := with_isAvailable (negb (isAvailable menuItem)) in
      let updatedMenuItem := data menuItem in
      (Switched (if isAvailable updatedMenuItem
                 then "Menu item enabled successfully"
                 else "Menu item disabled successfully") updatedMenuItem,
       set_menuItems d (update_where (fun m => item_id m =? id) data (menuItems d)))
  end.

(** *** Rewriting the row with a given id *)

Lemma update_where_first {A : Type} (p : A -> bool) (f : A -> A) (l : list A) (x : A) :
  find p l = Some x ->
  exists before after,
    l = before ++ x :: after /\
    (forall y, In y before -> p y = false) /\
    update_where p f l = before ++ f x :: after.
Proof.
  induction l as [| y l IH]; simpl; [discriminate|].
  destruct (p y) eqn:E.
  - intros [= ->]. exists [], l. simpl. repeat split. intros y [].
  - intros H. destruct (IH H) as (before & after & -> & Hb & Hu).
    exists (y :: before), after. simpl. rewrite Hu. repeat split.
    intros z [<- | Hz]; auto.
Qed.

Lemma update_where_back {A : Type} (p : A -> bool) (f g : A -> A) (l : list A) (x : A) :
  find p l = Some x -> p (f x) = true -> g (f x) = x ->
  update_where p g (update_where p f l) = l.
Proof.
  intros Hf Hp Hg.
  destruct (update_where_first p f l x Hf) as (before & after & -> & Hb & ->).
  clear Hf. induction before as [| y before IH]; simpl.
  - now rewrite Hp, Hg.
  - rewrite (Hb y) by (now left). f_equal. apply IH.
    intros z Hz. apply Hb. now right.
Qed.

Lemma key_unique {A : Type} (key : A -> Z) (l : list A) (k : Z) (x : A) :
  NoDup (map key l) ->
  find (fun y => key y =? k) l = Some x ->
  exists before after,
    l = before ++ x :: after /\ key x = k /\
    (forall y, In y before \/ In y after -> key y <> k).
Proof.
  intros Hnd Hf.
  destruct (update_where_first _ (fun y => y) l x Hf) as (before & after & -> & Hb & _).
  apply find_some in Hf. destruct Hf as [_ Hk]. apply Z.eqb_eq in Hk.
  exists before, after. repeat split; [exact Hk|].
  intros y [Hy | Hy].
  - apply Z.eqb_neq. now apply Hb.
  - rewrite map_app in Hnd. apply NoDup_remove_2 in Hnd. simpl in Hnd.
    intros Hyk. apply Hnd. apply in_or_app. right.
    rewrite Hk, <- Hyk. now apply in_map.
Qed.

Lemma update_where_key {A : Type} (key : A -> Z) (f : A -> A) (l : list A) (k : Z)
    (before after : list A) (x : A) :
  (forall y, In y before -> key y <> k) -> key x = k ->
  update_where (fun y => key y =? k) f (before ++ x :: after) =
  before ++ f x :: after.
Proof.
  intros Hb Hk. induction before as [| y before IH]; simpl.
  - rewrite Hk, Z.eqb_refl. reflexivity.
  - destruct (Z.eqb_spec (key y) k) as [E | _].
    + exfalso. apply (Hb y); [now left | exact E].
    + f_equal. apply IH. intros z Hz. apply Hb. now right.
Qed.

Lemma find_hotel_other (d : db) (id id' : Z) (f : hotel -> hotel) :
  (forall h, hotel_id (f h) = hotel_id h) -> id' <> id ->
  find (fun h => (hotel_id h =? id') && hotel_isActive h)
       (update_where (fun h => hotel_id h =? id) f (hotels d)) =
  find (fun h => (hotel_id h =? id') && hotel_isActive h) (hotels d).
Proof.
  intros Hf Hne. induction (hotels d) as [| x l IH]; simpl; [reflexivity|].
  destruct (Z.eqb_spec (hotel_id x) id) as [E | E]; simpl.
  - rewrite Hf, E. destruct (Z.eqb_spec id id') as [E' | _]; [congruence|].
    reflexivity.
  - now rewrite IH.
Qed.

Lemma db_eta (d : db) :
  {| hotels := hotels d; menuItems := menuItems d; orders := orders d;
     orderItems := orderItems d; reviews := reviews d;
     nextOrderId := nextOrderId d; nextReviewId := nextReviewId d |} = d.
Proof. now destruct d. Qed.

Lemma toggleHotelActive_back (d : db) (id : Z) :
  snd (toggleHotelActive (snd (toggleHotelActive d id)) id) = d.
Proof.
  unfold toggleHotelActive at 2.
  destruct (find _ (hotels d)) as [h|] eqn:Hf; simpl.
  - unfold toggleHotelActive. simpl.
    rewrite (find_update_where _ (with_isActive (negb (hotel_isActive h))) _ h)
      by (reflexivity || exact Hf).
    simpl. unfold set_hotels. simpl.
    rewrite (update_where_back _ _ _ _ h Hf).
    + apply db_eta.
    + simpl. apply find_some in Hf. apply Hf.
    + rewrite negb_involutive. now destruct h.
  - unfold toggleHotelActive. now rewrite Hf.
Qed.

Lemma toggleMenuItemAvailability_back (d : db) (id : Z) :
  snd (toggleMenuItemAvailability (snd (toggleMenuItemAvailability d id)) id) = d.
Proof.
  unfold toggleMenuItemAvailability at 2.
  destruct (find _ (menuItems d)) as [m|] eqn:Hf; simpl.
  - unfold toggleMenuItemAvailability. simpl.
    rewrite (find_update_where _ (with_isAvailable (negb (isAvailable m))) _ m)
      by (reflexivity || exact Hf).
    simpl. unfold set_menuItems. simpl.
    rewrite (update_where_back _ _ _ _ m Hf).
    + apply db_eta.
    + simpl. apply find_some in Hf. apply Hf.
    + rewrite negb_involutive. now destruct m.
  - unfold toggleMenuItemAvailability. now rewrite Hf.
Qed.

(** Switching twice is switching back: two toggles of the same hotel, or of
    the same menu item, leave every table as it was, and the second answer
    carries the row as it was stored before the first. *)
Theorem toggles_twice_restore (d : db) (id : Z) :
  (snd (toggleHotelActive (snd (toggleHotelActive d id)) id) = d /\
   forall h, find (fun h => hotel_id h =? id) (hotels d) = Some h ->
     exists message,
       fst (toggleHotelActive (snd (toggleHotelActive d id)) id) =
       Switched message h) /\
  (snd (toggleMenuItemAvailability (snd (toggleMenuItemAvailability d id)) id) = d /\
   forall m, find (fun m => item_id m =? id) (menuItems d) = Some m ->
     exists message,
       fst (toggleMenuItemAvailability (snd (toggleMenuItemAvailability d id)) id) =
       Switched message m).
Proof.
  split; split.
  - apply toggleHotelActive_back.
  - intros h Hf. unfold toggleHotelActive at 2. rewrite Hf. simpl.
    unfold toggleHotelActive. simpl.
    rewrite (find_update_where _ (with_isActive (negb (hotel_isActive h))) _ h)
      by (reflexivity || exact Hf).
    simpl. rewrite negb_involutive. eexists. f_equal. now destruct h.
  - apply toggleMenuItemAvailability_back.
  - intros m Hf. unfold toggleMenuItemAvailability at 2. rewrite Hf. simpl.
    unfold toggleMenuItemAvailability. simpl.
    rewrite (find_update_where _ (with_isAvailable (negb (isAvailable m))) _ m)
      by (reflexivity || exact Hf).
    simpl. rewrite negb_involutive. eexists. f_equal. now destruct m.
Qed.

(** Deactivating a hotel closes it for orders and nothing else: once an
    active hotel has been toggled, every order for it is answered 404
    'Hotel not found or not active' and stores nothing, while an order for
    any other hotel is answered as before the toggle. *)
Theorem toggleHotelActive_closes_ordering (d : db) (id : Z) (h : hotel) :
  NoDup (map hotel_id (hotels d)) ->
  find_hotel d id = Some h ->
  let d1 := snd (toggleHotelActive d id) in
  forall caller body num env,
    (body_hotelId body = id ->
     createOrder d1 caller body num env = (Failure HotelNotFound, d1)) /\
    (body_hotelId body <> id ->
     fst (createOrder d1 caller body num env) =
     fst (createOrder d caller body num env)).
Proof.
  intros Hnd Hh d1 caller body num env.
  assert (Hrow : find (fun x => hotel_id x =? id) (hotels d) = Some h /\
                 hotel_isActive h = true).
  { unfold find_hotel in Hh. pose proof (find_some _ _ Hh) as [Hin Hp].
    apply andb_prop in Hp. destruct Hp as [Hid Hact]. split; [|exact Hact].
    apply Z.eqb_eq in Hid.
    destruct (find (fun x => hotel_id x =? id) (hotels d)) as [x|] eqn:Hx.
    - destruct (key_unique hotel_id _ _ _ Hnd Hx) as (b & a & Hl & Hk & Hoth).
      rewrite Hl in Hin. apply in_app_or in Hin.
      destruct Hin as [Hin | [Hin | Hin]].
      + exfalso. apply (Hoth h); [now left | exact Hid].
      + now rewrite Hin.
      + exfalso. apply (Hoth h); [now right | exact Hid].
    - exfalso. apply (find_none _ _ Hx) in Hin. simpl in Hin.
      rewrite Hid, Z.eqb_refl in Hin. discriminate. }
  destruct Hrow as [Hrow Hact].
  assert (Hd1 : d1 = set_hotels d (update_where (fun x => hotel_id x =? id)
                        (with_isActive (negb (hotel_isActive h))) (hotels d))).
  { unfold d1, toggleHotelActive. now rewrite Hrow. }
  split.
  - intros Hb. unfold createOrder. rewrite Hb.
    replace (find _ (hotels d1)) with (@None hotel); [reflexivity|].
    symmetry. rewrite Hd1. simpl.
    destruct (key_unique hotel_id _ _ _ Hnd Hrow) as (b & a & Hl & Hk & Hoth).
    rewrite Hl, (update_where_key hotel_id _ (hotels d)) by
      (try exact Hk; intros y Hy; apply Hoth; now left).
    apply OrderLifecycle.find_all_false. intros y Hy.
    apply in_app_or in Hy. destruct Hy as [Hy | [<- | Hy]].
    + destruct (Z.eqb_spec (hotel_id y) id) as [E|_]; [|reflexivity].
      exfalso. apply (Hoth y); [now left | exact E].
    + simpl. rewrite Hact. apply andb_false_r.
    + destruct (Z.eqb_spec (hotel_id y) id) as [E|_]; [|reflexivity].
      exfalso. apply (Hoth y); [now right | exact E].
  - intros Hne. unfold createOrder. rewrite Hd1. simpl.
    rewrite find_hotel_other by (reflexivity || exact Hne).
    clear Hrow.
    destruct (find _ (hotels d)) as [x|]; [|reflexivity].
    destruct (priceItems _ _ _ _) as [f | [t ls]]; [reflexivity|].
    destruct (_ <? _)%float; [reflexivity|].
    destruct (processPayment _ _); reflexivity.
Qed.

Lemma filter_twice_all {A : Type} (p q : A -> bool) (l : list A) :
  (forall x, In x l -> p x = true) -> filter p (filter q l) = filter q l.
Proof.
  intros H. apply OrderLifecycle.filter_all_true. apply Forall_forall.
  intros x Hx. apply filter_In in Hx. apply H, Hx.
Qed.

Lemma available_menu_disabled (d : db) (id : Z) (m : menuItem) (h : hotel) :
  NoDup (map item_id (menuItems d)) ->
  find (fun m => item_id m =? id) (menuItems d) = Some m ->
  isAvailable m = true ->
  available_menu (snd (toggleMenuItemAvailability d id)) h =
  filter (fun x => negb (item_id x =? id)) (available_menu d h).
Proof.
  intros Hnd Hf Hav. unfold toggleMenuItemAvailability. rewrite Hf.
  unfold available_menu. simpl.
  destruct (key_unique item_id _ _ _ Hnd Hf) as (b & a & Hl & Hk & Hoth).
  rewrite Hl, (update_where_key item_id _ (menuItems d)) by
    (try exact Hk; intros y Hy; apply Hoth; now left).
  rewrite !filter_app. simpl. rewrite Hav, andb_false_r, andb_true_r.
  rewrite (filter_twice_all _ _ b).
  - f_equal. destruct (item_hotelId m =? hotel_id h); simpl.
    + rewrite Hk, Z.eqb_refl. simpl. symmetry. apply filter_twice_all.
      intros x Hx. apply negb_true_iff, Z.eqb_neq, Hoth. now right.
    + symmetry. apply filter_twice_all.
      intros x Hx. apply negb_true_iff, Z.eqb_neq, Hoth. now right.
  - intros x Hx. apply negb_true_iff, Z.eqb_neq, Hoth. now left.
Qed.

(** Disabling a menu item takes it off every menu and nothing else: after
    an available item has been toggled, the menu orders are priced against
    is the old one without that item, and an order whose first invalid line
    names the item is answered 400 'not found or not available', with the
    item's id, and stores nothing. *)
Theorem toggleMenuItemAvailability_takes_off_menu (d : db) (id : Z) (m : menuItem) :
  NoDup (map item_id (menuItems d)) ->
  find (fun m => item_id m =? id) (menuItems d) = Some m ->
  isAvailable m = true ->
  let d1 := snd (toggleMenuItemAvailability d id) in
  (forall h,
     available_menu d1 h =
     filter (fun x => negb (item_id x =? id)) (available_menu d h)) /\
  (forall caller body num env h pre line post,
     find_hotel d (body_hotelId body) = Some h ->
     body_items body = pre ++ line :: post ->
     cart_valid (available_menu d1 h) pre = true ->
     menuItemId line = id ->
     createOrder d1 caller body num env =
       (Failure (MenuItemNotAvailable id), d1)).
Proof.
  intros Hnd Hf Hav d1. split.
  - intros h. now apply (available_menu_disabled d id m).
  - intros caller body num env h pre line post Hh Hitems Hpre Hline.
    assert (Hhotels : hotels d1 = hotels d).
    { unfold d1, toggleMenuItemAvailability. now rewrite Hf. }
    assert (Hnone : find_item (available_menu d1 h) line = None).
    { unfold d1. rewrite (available_menu_disabled d id m h Hnd Hf Hav).
      apply OrderLifecycle.find_all_false. intros x Hx.
      apply filter_In in Hx. destruct Hx as [_ Hx].
      rewrite Hline. now apply negb_true_iff. }
    destruct (OrderLifecycle.priceItems_prefix _ _ Hpre (line :: post) 0%float [])
      as (acc & ls & Hp).
    unfold find_hotel in Hh. unfold createOrder.
    rewrite Hhotels, Hh. fold (available_menu d1 h).
    rewrite Hitems, Hp. simpl. now rewrite Hnone, Hline.
Qed.

(** *** On the small catalogue *)

Lemma toggles_twice_restore_witness :
  (snd (toggleHotelActive (snd (toggleHotelActive catalogue 1)) 1) = catalogue /\
   exists message,
     fst (toggleHotelActive (snd (toggleHotelActive catalogue 1)) 1) =
     Switched message bistro) /\
  (snd (toggleMenuItemAvailability
          (snd (toggleMenuItemAvailability catalogue 12)) 12) = catalogue /\
   exists message,
     fst (toggleMenuItemAvailability
            (snd (toggleMenuItemAvailability catalogue 12)) 12) =
     Switched message tea).
Proof.
  destruct (toggles_twice_restore catalogue 1) as [[H1 H2] _].
  destruct (toggles_twice_restore catalogue 12) as [_ [H3 H4]].
  split; split.
  - exact H1.
  - apply H2. reflexivity.
  - exact H3.
  - apply H4. reflexivity.
Defined.

Lemma catalogue_hotels_keyed : NoDup (map hotel_id (hotels catalogue)).
Proof. simpl. constructor; [intros [] | constructor]. Qed.

Lemma catalogue_items_keyed : NoDup (map item_id (menuItems catalogue)).
Proof.
  simpl. constructor; [intros [H | []]; discriminate H|].
  constructor; [intros [] | constructor].
Qed.

Lemma toggleHotelActive_closes_ordering_witness :
  createOrder (snd (toggleHotelActive catalogue 1)) alice
    (OrderLifecycle.cart_of [OrderLifecycle.two_soups] None)
    "ORD-20240105-K3F9A0042" payments =
  (Failure HotelNotFound, snd (toggleHotelActive catalogue 1)).
Proof.
  apply (toggleHotelActive_closes_ordering catalogue 1 bistro
           catalogue_hotels_keyed eq_refl).
  reflexivity.
Defined.

Lemma toggleMenuItemAvailability_takes_off_menu_witness :
  available_menu (snd (toggleMenuItemAvailability catalogue 12)) bistro = [soup] /\
  createOrder (snd (toggleMenuItemAvailability catalogue 12)) alice
    (OrderLifecycle.cart_of [OrderLifecycle.two_soups; OrderLifecycle.one_tea] None)
    "ORD-20240105-K3F9A0042" payments =
  (Failure (MenuItemNotAvailable 12), snd (toggleMenuItemAvailability catalogue 12)).
Proof.
  destruct (toggleMenuItemAvailability_takes_off_menu catalogue 12 tea
              catalogue_items_keyed eq_refl eq_refl) as [Hmenu Horder].
  split.
  - rewrite Hmenu. reflexivity.
  - apply (Horder alice _ _ payments bistro [OrderLifecycle.two_soups]
             OrderLifecycle.one_tea []); reflexivity.
Defined.

End CatalogueSwitches.

(* ================================================================= *)
(** ** controllers/userController.js: the address book *)

Module Addresses.

Import Store.
Local Open Scope Z_scope.

(** A row of the address table.  The handlers are modelled on requests
    that carry no coordinates, so [latitude] and [longitude], which no
    handler reads back, are left out of the row. *)
Record address : Type := mkAddress
  { addr_id : Z;
    addr_userId : Z;
    label : string;
    addr_address : string;
    city : string;
    isDefault : bool }.

(** The address table in storage order, and the next value of its
    autoincrement id. *)
Record book : Type := mkBook
  { addresses : list address;
    nextAddressId : Z }.

(** [req.body] of [addUserAddress]; [isDefault] may be absent. *)
Record addBody : Type := mkAddBody
  { add_label : string;
    add_address : string;
    add_city : string;
    add_isDefault : option bool }.

(** [req.body] of [updateUserAddress]; [None] is [undefined]. *)
Record updateBody : Type := mkUpdateBody
  { upd_label : option string;
    upd_address : option string;
    upd_city : option string;
    upd_isDefault : option bool }.

(** What an address handler leaves: 404 'Address not found', a success
    body with its status and message, or an exception passed to [next]. *)
Inductive answer (A : Type) : Type :=
| AddressNotFound
| Sent (status : Z) (message : string) (body : A)
| Raised.

Arguments AddressNotFound {A}.
Arguments Sent {A} status message body.
Arguments Raised {A}.

(** [updateMany({ where, data })] *)
Definition update_many {A : Type} (p : A -> bool) (f : A -> A) (l : list A) : list A :=
  map (fun a => if p a then f a else a) l.

(** [delete({ where })] on a unique field. *)
Fixpoint delete_where {A : Type} (p : A -> bool) (l : list A) : list A :=
  match l with
  | [] => []
  | x :: l' => if p x then l' else x :: delete_where p l'
  end.

(** [data: { isDefault: .. }] *)
Definition with_isDefault (v : bool) (a : address) : address :=
  {| addr_id := addr_id a; addr_userId := addr_userId a; label := label a;
     addr_address := addr_address a; city := city a; isDefault := v |}.

(** The [updateMany] both writers start with when the request makes an
    address the default. *)
Definition unset_defaults (user : Z) (l : list address) : list address :=
  update_many (fun a => (addr_userId a =? user) && isDefault a)
              (with_isDefault false) l.

(** [addUserAddress] *)
Definition addUserAddress (b : book) (user : principal) (body : addBody)
  : answer address * book :=
  let isDefault := match add_isDefault body with Some v => v | None => false end in
  let rows := if isDefault then unset_defaults (uid user) (addresses b)
              else addresses b in
  let newAddress :=
    {| addr_id := nextAddressId b; addr_userId := uid user;
       label := add_label body; addr_address := add_address body;
       city := add_city body; isDefault := isDefault |} in
  (Sent 201 "Address added successfully" newAddress,
   {| addresses := rows ++ [newAddress];
      nextAddressId := nextAddressId b + 1 |}).

(** The [updateData] object of [updateUserAddress], applied to a row. *)
Definition updateData (body : updateBody) (a : address) : address :=
  {| addr_id := addr_id a; addr_userId := addr_userId a;
     label := match upd_label body with Some v => v | None => label a end;
     addr_address :=
       match upd_address body with Some v => v | None => addr_address a end;
     city := match upd_city body with Some v => v | None => city a end;
     isDefault :=
       match upd_isDefault body with Some v => v | None => isDefault a end |}.

(** [updateUserAddress] *)
Definition updateUserAddress (b : book) (user : principal) (id : Z)
    (body : updateBody) : answer address * book :=
  match find (fun a => (addr_id a =? id) && (addr_userId a =? uid user))
             (addresses b) with
  | None => (AddressNotFound, b)
  | Some existingAddress =>
      let rows :=
        match upd_isDefault body with
        | Some true => unset_defaults (uid user) (addresses b)
        | _ => addresses b
        end in
      match find (fun a => addr_id a =? id) rows with
      | None => (Raised, {| addresses := rows; nextAddressId := nextAddressId b |})
      | Some row =>
          (Sent 200 "Address updated successfully" (updateData body row),
           {| addresses :=
                update_where (fun a => addr_id a =? id) (updateData body) rows;
              nextAddressId := nextAddressId b |})
      end
  end.

(** [deleteUserAddress]; the [findFirst] for another address returns the
    first of the user's rows in storage order. *)
Definition deleteUserAddress (b : book) (user : principal) (id : Z)
  : answer unit * book :=
  match find (fun a => (addr_id a =? id) && (addr_userId a =? uid user))
             (addresses b) with
  | None => (AddressNotFound, b)
  | Some address =>
      let rows := delete_where (fun a => addr_id a =? id) (addresses b) in
      let rows :=
        if isDefault address then
          match find (fun a => addr_userId a =? uid user) rows with
          | Some anotherAddress =>
              update_where (fun a => addr_id a =? addr_id anotherAddress)
                           (with_isDefault true) rows
          | None => rows
          end
        else rows in
      (Sent 200 "Address deleted successfully" tt,
       {| addresses := rows; nextAddressId := nextAddressId b |})
  end.

(** A user's addresses, and the ones among them marked as default. *)
Definition owned (u : Z) (l : list address) : list address :=
  filter (fun a => addr_userId a =? u) l.

Definition defaults (u : Z) (l : list address) : list address :=
  filter (fun a => (addr_userId a =? u) && isDefault a) l.

(** The state the handlers are meant to keep: ids are a key handed out
    below the counter, and no user has two default addresses. *)
Definition tidy (b : book) : Prop :=
  NoDup (map addr_id (addresses b)) /\
  Forall (fun i => i < nextAddressId b) (map addr_id (addresses b)) /\
  forall u, (List.length (defaults u (addresses b)) <= 1)%nat.

(** The seeded address book: an office, the default, and a home for one
    user, and a flat for another. *)
Definition office : address :=
  {| addr_id := 1; addr_userId := 7; label := "Office";
     addr_address := "456 Work Avenue, Business District";
     city := "New York"; isDefault := true |}.

Definition home : address :=
  {| addr_id := 2; addr_userId := 7; label := "Home";
     addr_address := "789 Residential Street, Suburb";
     city := "New York"; isDefault := false |}.

Definition flat : address :=
  {| addr_id := 3; addr_userId := 8; label := "Flat";
     addr_address := "12 Canal Street"; city := "New York"; isDefault := true |}.

Definition seeded : book :=
  {| addresses := [office; home; flat]; nextAddressId := 4 |}.

Definition studio : addBody :=
  {| add_label := "Studio"; add_address := "3 Mill Lane";
     add_city := "New York"; add_isDefault := Some true |}.

Definition make_default : updateBody :=
  {| upd_label := None; upd_address := None; upd_city := None;
     upd_isDefault := Some true |}.

(** *** Rows and keys *)

Lemma NoDup_key_eq {A : Type} (key : A -> Z) (l : list A) (x y : A) :
  NoDup (map key l) -> In x l -> In y l -> key x = key y -> x = y.
Proof.
  induction l as [| a l IH]; simpl; [intros _ []|].
  intros Hnd Hx Hy Hk. apply NoDup_cons_iff in Hnd. destruct Hnd as [Hna Hnd].
  destruct Hx as [-> | Hx], Hy as [-> | Hy]; auto.
  - exfalso. apply Hna. rewrite Hk. now apply in_map.
  - exfalso. apply Hna. rewrite <- Hk. now apply in_map.
Qed.

Lemma find_key_In {A : Type} (key : A -> Z) (l : list A) (x : A) :
  NoDup (map key l) -> In x l -> find (fun y => key y =? key x) l = Some x.
Proof.
  intros Hnd Hx.
  destruct (find (fun y => key y =? key x) l) as [y|] eqn:Hf.
  - apply find_some in Hf. destruct Hf as [Hy Hk]. apply Z.eqb_eq in Hk.
    f_equal. now apply (NoDup_key_eq key l).
  - apply (find_none _ _ Hf) in Hx. simpl in Hx. now rewrite Z.eqb_refl in Hx.
Qed.

Lemma map_key_update_many {A : Type} (key : A -> Z) p (f : A -> A) (l : list A) :
  (forall a, key (f a) = key a) ->
  map key (update_many p f l) = map key l.
Proof.
  intros Hf. unfold update_many. rewrite map_map. apply map_ext.
  intros a. now destruct (p a).
Qed.

Lemma map_key_update_where {A : Type} (key : A -> Z) p (f : A -> A) (l : list A) :
  (forall a, key (f a) = key a) ->
  map key (update_where p f l) = map key l.
Proof.
  intros Hf. induction l as [| a l IH]; simpl; [reflexivity|].
  destruct (p a); simpl; [now rewrite Hf | now rewrite IH].
Qed.

Lemma In_delete_where {A : Type} (p : A -> bool) (l : list A) (x : A) :
  In x (delete_where p l) -> In x l.
Proof.
  induction l as [| a l IH]; simpl; [auto|].
  destruct (p a); simpl; [auto|]. intros [-> | H]; auto.
Qed.

Lemma NoDup_delete_where {A : Type} (key : A -> Z) p (l : list A) :
  NoDup (map key l) -> NoDup (map key (delete_where p l)).
Proof.
  induction l as [| a l IH]; simpl; [auto|].
  intros Hnd. apply NoDup_cons_iff in Hnd. destruct Hnd as [Hna Hnd].
  destruct (p a); simpl; [exact Hnd|].
  apply NoDup_cons_iff. split; [|auto].
  intros Hin. apply Hna. apply in_map_iff in Hin.
  destruct Hin as (y & Hy & Hin). apply in_map_iff. exists y.
  split; [exact Hy|]. now apply In_delete_where in Hin.
Qed.

(** *** Counting the rows a write changes *)

Lemma filter_update_many {A : Type} (p r : A -> bool) (f : A -> A) (l : list A) :
  (forall x, p x = true -> r x = false /\ r (f x) = false) ->
  filter r (update_many p f l) = filter r l.
Proof.
  intros H. induction l as [| a l IH]; simpl; [reflexivity|].
  fold (update_many p f l). rewrite IH.
  destruct (p a) eqn:E; [|reflexivity].
  destruct (H a E) as [-> ->]. reflexivity.
Qed.

Lemma filter_update_where {A : Type} (p r : A -> bool) (f : A -> A) (l : list A) :
  (forall x, In x l -> p x = true -> r x = false /\ r (f x) = false) ->
  filter r (update_where p f l) = filter r l.
Proof.
  induction l as [| a l IH]; simpl; intros H; [reflexivity|].
  destruct (p a) eqn:E; simpl.
  - destruct (H a (or_introl eq_refl) E) as [-> ->]. reflexivity.
  - rewrite IH; [reflexivity|]. intros x Hx. apply H. now right.
Qed.

Lemma filter_delete_where {A : Type} (p r : A -> bool) (l : list A) :
  (forall x, In x l -> p x = true -> r x = false) ->
  filter r (delete_where p l) = filter r l.
Proof.
  induction l as [| a l IH]; simpl; intros H; [reflexivity|].
  destruct (p a) eqn:E; simpl.
  - now rewrite (H a (or_introl eq_refl) E).
  - rewrite IH; [reflexivity|]. intros x Hx. apply H. now right.
Qed.

Lemma count_update_where_le {A : Type} (p q : A -> bool) (f : A -> A) (l : list A) :
  (forall x, In x l -> p x = true -> q (f x) = true -> q x = true) ->
  (List.length (filter q (update_where p f l)) <= List.length (filter q l))%nat.
Proof.
  induction l as [| a l IH]; simpl; intros H; [lia|].
  destruct (p a) eqn:E; simpl.
  - destruct (q (f a)) eqn:Ef.
    + rewrite (H a (or_introl eq_refl) E Ef). simpl. lia.
    + destruct (q a); simpl; lia.
  - assert (IH' := IH (fun x Hx => H x (or_intror Hx))).
    destruct (q a); simpl; lia.
Qed.

Lemma count_update_where_S {A : Type} (p q : A -> bool) (f : A -> A) (l : list A) :
  (List.length (filter q (update_where p f l)) <= S (List.length (filter q l)))%nat.
Proof.
  induction l as [| a l IH]; simpl; [lia|].
  destruct (p a); simpl.
  - destruct (q (f a)), (q a); simpl; lia.
  - destruct (q a); simpl; lia.
Qed.

Lemma count_delete_where_le {A : Type} (p q : A -> bool) (l : list A) :
  (List.length (filter q (delete_where p l)) <= List.length (filter q l))%nat.
Proof.
  induction l as [| a l IH]; simpl; [lia|].
  destruct (p a); simpl; destruct (q a); simpl; lia.
Qed.

Lemma count_delete_where_found {A : Type} (p q : A -> bool) (l : list A) (x : A) :
  find p l = Some x -> q x = true ->
  S (List.length (filter q (delete_where p l))) = List.length (filter q l).
Proof.
  induction l as [| a l IH]; simpl; [discriminate|].
  destruct (p a) eqn:E.
  - intros [= ->] Hq. now rewrite Hq.
  - intros Hf Hq. simpl. destruct (q a); simpl; now rewrite <- (IH Hf Hq).
Qed.

Lemma length_0_nil {A : Type} (l : list A) : (List.length l <= 0)%nat -> l = [].
Proof. destruct l; simpl; [reflexivity | lia]. Qed.

(** *** The defaults of a user *)

Lemma defaults_unset (u : Z) (l : list address) :
  defaults u (unset_defaults u l) = [].
Proof.
  unfold defaults, unset_defaults, update_many.
  apply OrderLifecycle.filter_all_false. apply Forall_forall.
  intros x Hx. apply in_map_iff in Hx. destruct Hx as (a & <- & _).
  destruct ((addr_userId a =? u) && isDefault a) eqn:E; [|exact E].
  simpl. apply andb_false_r.
Qed.

Lemma owned_unset (u v : Z) (l : list address) :
  v <> u -> owned v (unset_defaults u l) = owned v l.
Proof.
  intros Hne. apply filter_update_many. intros x Hx.
  apply andb_prop in Hx. destruct Hx as [Hx _]. apply Z.eqb_eq in Hx.
  simpl. rewrite Hx. split; now apply Z.eqb_neq.
Qed.

Lemma defaults_unset_other (u v : Z) (l : list address) :
  v <> u -> defaults v (unset_defaults u l) = defaults v l.
Proof.
  intros Hne. apply filter_update_many. intros x Hx.
  apply andb_prop in Hx. destruct Hx as [Hx _]. apply Z.eqb_eq in Hx.
  simpl. rewrite Hx.
  replace (u =? v) with false by (symmetry; now apply Z.eqb_neq).
  split; reflexivity.
Qed.

Lemma unset_defaults_ids (u : Z) (l : list address) :
  map addr_id (unset_defaults u l) = map addr_id l.
Proof. now apply map_key_update_many. Qed.

Lemma unset_defaults_owner (u : Z) (l : list address) (x : address) :
  In x (unset_defaults u l) ->
  exists a, In a l /\ addr_id a = addr_id x /\ addr_userId a = addr_userId x.
Proof.
  intros Hx. apply in_map_iff in Hx. destruct Hx as (a & <- & Ha).
  exists a. split; [exact Ha|]. now destruct (_ && _).
Qed.

(** The row [findFirst] returns for an id and its owner is the only row
    with that id. *)
Lemma found_own (l : list address) (id u : Z) (a : address) :
  NoDup (map addr_id l) ->
  find (fun a => (addr_id a =? id) && (addr_userId a =? u)) l = Some a ->
  In a l /\ addr_id a = id /\ addr_userId a = u /\
  find (fun a => addr_id a =? id) l = Some a /\
  forall x, In x l -> addr_id x = id -> x = a.
Proof.
  intros Hnd Hf. apply find_some in Hf. destruct Hf as [Hin Hp].
  apply andb_prop in Hp. destruct Hp as [Hid Hu].
  apply Z.eqb_eq in Hid. apply Z.eqb_eq in Hu.
  repeat split; auto.
  - rewrite <- Hid. now apply (find_key_In addr_id).
  - intros x Hx Hk. apply (NoDup_key_eq addr_id l); congruence.
Qed.

Lemma not_own (l : list address) (id u : Z) (a : address) :
  NoDup (map addr_id l) ->
  find (fun a => addr_id a =? id) l = Some a -> addr_userId a <> u ->
  find (fun a => (addr_id a =? id) && (addr_userId a =? u)) l = None.
Proof.
  intros Hnd Hf Hne.
  destruct (find (fun a => (addr_id a =? id) && _) l) as [x|] eqn:Hx;
    [|reflexivity].
  destruct (found_own _ _ _ _ Hnd Hx) as (_ & _ & Hu & Hf' & _).
  congruence.
Qed.

Lemma filter_and {A : Type} (r q : A -> bool) (l : list A) :
  filter (fun a => r a && q a) l = filter q (filter r l).
Proof.
  induction l as [| a l IH]; simpl; [reflexivity|].
  destruct (r a); simpl; [|exact IH]. destruct (q a); now rewrite IH.
Qed.

Lemma filter_delete_where_comm {A : Type} (p r : A -> bool) (l : list A) :
  (forall x, In x l -> p x = true -> r x = true) ->
  filter r (delete_where p l) = delete_where p (filter r l).
Proof.
  induction l as [| a l IH]; simpl; intros H; [reflexivity|].
  destruct (p a) eqn:E.
  - rewrite (H a (or_introl eq_refl) E). simpl. now rewrite E.
  - simpl. destruct (r a); simpl; rewrite ?E, IH; auto.
Qed.

Lemma filter_update_where_comm {A : Type} (p r : A -> bool) (f : A -> A) (l : list A) :
  (forall x, r (f x) = r x) ->
  (forall x, In x l -> p x = true -> r x = true) ->
  filter r (update_where p f l) = update_where p f (filter r l).
Proof.
  intros Hr. induction l as [| a l IH]; simpl; intros H; [reflexivity|].
  destruct (p a) eqn:E; simpl.
  - rewrite Hr, (H a (or_introl eq_refl) E). simpl. now rewrite E.
  - destruct (r a); simpl; rewrite ?E, IH; auto.
Qed.

Lemma find_hd_filter {A : Type} (r : A -> bool) (l : list A) :
  find r l = hd_error (filter r l).
Proof.
  induction l as [| a l IH]; simpl; [reflexivity|].
  destruct (r a); [reflexivity | exact IH].
Qed.

Lemma find_key_map {A : Type} (key : A -> Z) (g : A -> A) (k : Z) (l : list A) :
  (forall a, key (g a) = key a) ->
  find (fun y => key y =? k) (map g l) =
  option_map g (find (fun y => key y =? k) l).
Proof.
  intros Hg. induction l as [| a l IH]; simpl; [reflexivity|].
  rewrite Hg. destruct (key a =? k); [reflexivity | exact IH].
Qed.

Lemma In_update_where_found {A : Type} (p : A -> bool) (f : A -> A) (l : list A) (x : A) :
  find p l = Some x -> In (f x) (update_where p f l).
Proof.
  induction l as [| a l IH]; simpl; [discriminate|].
  destruct (p a).
  - intros [= ->]. now left.
  - intros H. right. auto.
Qed.

Lemma only_member {A : Type} (l : list A) (x : A) :
  In x l -> (List.length l <= 1)%nat -> l = [x].
Proof.
  destruct l as [| y [| z l]]; simpl; intros Hin Hlen.
  - destruct Hin.
  - destruct Hin as [-> | []]. reflexivity.
  - lia.
Qed.

(** *** The three writers keep the book tidy *)

Lemma addUserAddress_tidy (b : book) (user : principal) (body : addBody) :
  tidy b -> tidy (snd (addUserAddress b user body)).
Proof.
  intros (Hnd & Hlt & Hone). unfold addUserAddress. simpl.
  remember (match add_isDefault body with Some v => v | None => false end) as isd.
  remember (if isd then unset_defaults (uid user) (addresses b) else addresses b)
    as rows eqn:Hrows.
  assert (Hids : map addr_id rows = map addr_id (addresses b)).
  { subst rows. destruct isd; [apply unset_defaults_ids | reflexivity]. }
  split; [|split]; simpl.
  - rewrite map_app, Hids. simpl.
    apply OrderLifecycle.NoDup_app_one; [exact Hnd|].
    intros Hin. rewrite Forall_forall in Hlt. apply Hlt in Hin. lia.
  - rewrite map_app, Hids. apply Forall_app. split.
    + eapply Forall_impl; [|exact Hlt]. simpl. intros; lia.
    + constructor; [simpl; lia | constructor].
  - intros u. unfold defaults. rewrite filter_app, length_app.
    fold (defaults u rows). simpl.
    destruct isd.
    + destruct (Z.eq_dec u (uid user)) as [-> | Hne].
      * subst rows. rewrite defaults_unset. simpl.
        destruct (_ && _); simpl; lia.
      * subst rows. rewrite defaults_unset_other by exact Hne.
        replace (uid user =? u) with false
          by (symmetry; apply Z.eqb_neq; congruence).
        simpl. rewrite Nat.add_0_r. apply Hone.
    + subst rows. rewrite andb_false_r. simpl. rewrite Nat.add_0_r. apply Hone.
Qed.

(** The rows [updateUserAddress] writes to, after the [updateMany]. *)
Lemma update_rows (b : book) (u id : Z) (v : option bool) (a : address) :
  tidy b ->
  find (fun a => (addr_id a =? id) && (addr_userId a =? u)) (addresses b) = Some a ->
  let rows := match v with
              | Some true => unset_defaults u (addresses b)
              | _ => addresses b
              end in
  map addr_id rows = map addr_id (addresses b) /\
  (forall x, In x rows -> addr_id x = id -> addr_userId x = u) /\
  (forall w, (List.length (defaults w rows) <= 1)%nat) /\
  (exists row, find (fun a => addr_id a =? id) rows = Some row /\
               addr_userId row = u /\
               forall body, upd_isDefault body = v -> v <> None ->
                            updateData body row = updateData body a).
Proof.
  intros (Hnd & Hlt & Hone) Hf rows.
  destruct (found_own _ _ _ _ Hnd Hf) as (Hin & Hid & Hu & Hfid & Huniq).
  assert (Hcase : rows = addresses b \/
                  (v = Some true /\ rows = unset_defaults u (addresses b))).
  { unfold rows. destruct v as [[|]|]; auto. }
  destruct Hcase as [-> | [Hv ->]].
  - repeat split; auto.
    + intros x Hx Hk. now rewrite (Huniq x Hx Hk).
    + exists a. repeat split; auto.
  - repeat split.
    + apply unset_defaults_ids.
    + intros x Hx Hk. apply unset_defaults_owner in Hx.
      destruct Hx as (a' & Ha' & Hk' & Hu'). rewrite <- Hu'.
      rewrite (Huniq a' Ha') by congruence. exact Hu.
    + intros w. destruct (Z.eq_dec w u) as [-> | Hne].
      * rewrite defaults_unset. simpl. lia.
      * rewrite defaults_unset_other by exact Hne. apply Hone.
    + unfold unset_defaults, update_many.
      rewrite (find_key_map addr_id) by (intros x; now destruct (_ && _)).
      rewrite Hfid. simpl. eexists. split; [reflexivity|]. split.
      * now destruct (_ && _).
      * intros body Hb _. unfold updateData. rewrite Hb, Hv.
        now destruct (_ && _).
Qed.

Lemma updateUserAddress_tidy (b : book) (user : principal) (id : Z) (body : updateBody) :
  tidy b ->
  tidy (snd (updateUserAddress b user id body)) /\
  fst (updateUserAddress b user id body) <> Raised.
Proof.
  intros Ht. unfold updateUserAddress.
  destruct (find _ (addresses b)) as [a|] eqn:Hf; [|simpl; split; [exact Ht | discriminate]].
  destruct (update_rows b (uid user) id (upd_isDefault body) a Ht Hf)
    as (Hids & Hown & Hcount & row & Hrow & Hru & _).
  assert (Hzero : upd_isDefault body = Some true ->
                  defaults (uid user)
                    (match upd_isDefault body with
                     | Some true => unset_defaults (uid user) (addresses b)
                     | _ => addresses b
                     end) = []).
  { intros ->. apply defaults_unset. }
  remember (match upd_isDefault body with
            | Some true => unset_defaults (uid user) (addresses b)
            | _ => addresses b
            end) as rows eqn:Hrows.
  destruct Ht as (Hnd & Hlt & Hone).
  rewrite Hrow. simpl. split; [|discriminate].
  split; [|split]; simpl.
  - rewrite map_key_update_where by reflexivity. now rewrite Hids.
  - rewrite map_key_update_where by reflexivity. now rewrite Hids.
  - intros u. destruct (Z.eq_dec u (uid user)) as [-> | Hne].
    + destruct (upd_isDefault body) as [[|]|] eqn:Ed.
      * eapply Nat.le_trans; [apply count_update_where_S|].
        fold (defaults (uid user) rows). rewrite Hzero by reflexivity.
        simpl. lia.
      * eapply Nat.le_trans; [apply count_update_where_le | apply Hcount].
        intros x _ _ Hq. simpl in Hq. rewrite Ed, andb_false_r in Hq.
        discriminate.
      * eapply Nat.le_trans; [apply count_update_where_le | apply Hcount].
        intros x _ _ Hq. simpl in Hq. now rewrite Ed in Hq.
    + unfold defaults. rewrite filter_update_where; [apply Hcount|].
      intros x Hx Hp. apply Z.eqb_eq in Hp. simpl.
      rewrite (Hown x Hx Hp).
      replace (uid user =? u) with false
        by (symmetry; apply Z.eqb_neq; congruence).
      split; reflexivity.
Qed.

Lemma deleteUserAddress_tidy (b : book) (user : principal) (id : Z) :
  tidy b -> tidy (snd (deleteUserAddress b user id)).
Proof.
  intros (Hnd & Hlt & Hone). unfold deleteUserAddress.
  destruct (find _ (addresses b)) as [a|] eqn:Hf;
    [|simpl; split; [|split]; assumption].
  destruct (found_own _ _ _ _ Hnd Hf) as (Hin & Hid & Hu & Hfid & Huniq).
  remember (delete_where (fun a => addr_id a =? id) (addresses b)) as rows1.
  assert (Hnd1 : NoDup (map addr_id rows1))
    by (subst; now apply NoDup_delete_where).
  assert (Hlt1 : Forall (fun i => i < nextAddressId b) (map addr_id rows1)).
  { rewrite Forall_forall in *. intros i Hi. apply Hlt.
    apply in_map_iff in Hi. destruct Hi as (x & <- & Hx).
    apply in_map. subst. now apply In_delete_where in Hx. }
  assert (Hone1 : forall u, (List.length (defaults u rows1) <= 1)%nat).
  { intros u. eapply Nat.le_trans; [|apply (Hone u)].
    subst. apply count_delete_where_le. }
  destruct (isDefault a) eqn:Hd; simpl; [|split; [|split]; assumption].
  destruct (find (fun a => addr_userId a =? uid user) rows1)
    as [another|] eqn:Han; simpl; [|split; [|split]; assumption].
  apply find_some in Han. destruct Han as [Hain Hau]. apply Z.eqb_eq in Hau.
  split; [|split]; simpl.
  - now rewrite map_key_update_where by reflexivity.
  - now rewrite map_key_update_where by reflexivity.
  - intros u. destruct (Z.eq_dec u (uid user)) as [-> | Hne].
    + eapply Nat.le_trans; [apply count_update_where_S|].
      assert (Hs : S (List.length (defaults (uid user) rows1)) =
                   List.length (defaults (uid user) (addresses b))).
      { subst rows1. apply (count_delete_where_found _ _ _ a Hfid).
        simpl. now rewrite Hu, Z.eqb_refl, Hd. }
      specialize (Hone (uid user)). fold (defaults (uid user) rows1). lia.
    + unfold defaults. rewrite filter_update_where; [apply Hone1|].
      intros x Hx Hp. apply Z.eqb_eq in Hp.
      assert (x = another) by (now apply (NoDup_key_eq addr_id rows1)).
      subst x. simpl. rewrite Hau.
      replace (uid user =? u) with false
        by (symmetry; apply Z.eqb_neq; congruence).
      split; reflexivity.
Qed.

Lemma seeded_tidy : tidy seeded.
Proof.
  split; [|split].
  - simpl. repeat constructor; simpl; intuition discriminate.
  - simpl. repeat constructor.
  - intros u. unfold defaults, seeded, office, home, flat.
    cbn [filter addresses addr_userId isDefault].
    destruct (Z.eqb_spec 7 u), (Z.eqb_spec 8 u); simpl; lia.
Qed.

(** Ids stay a key of the address table, handed out below the counter, and
    no user ever has two default addresses: adding, updating and deleting
    an address each keep this, whatever the request; and an update never
    ends in an exception. *)
Theorem address_writers_keep_one_default (b : book) (user : principal) :
  tidy b ->
  (forall body, tidy (snd (addUserAddress b user body))) /\
  (forall id body,
     tidy (snd (updateUserAddress b user id body)) /\
     fst (updateUserAddress b user id body) <> Raised) /\
  (forall id, tidy (snd (deleteUserAddress b user id))).
Proof.
  intros Ht. split; [|split].
  - intros body. now apply addUserAddress_tidy.
  - intros id body. now apply updateUserAddress_tidy.
  - intros id. now apply deleteUserAddress_tidy.
Qed.

Lemma address_writers_keep_one_default_witness :
  tidy (snd (addUserAddress seeded OrderController.alice studio)) /\
  tidy (snd (updateUserAddress seeded OrderController.alice 2 make_default)) /\
  tidy (snd (deleteUserAddress seeded OrderController.alice 1)).
Proof.
  destruct (address_writers_keep_one_default seeded OrderController.alice seeded_tidy)
    as (Ha & Hu & Hd).
  split; [apply Ha | split; [apply Hu | apply Hd]].
Defined.

(** *** Other users' addresses *)

(** A user's requests leave every other user's addresses as they are:
    same rows, same order, same default.  And an id that belongs to another
    user's address is answered 404 by update and delete alike, with the
    table untouched. *)
Theorem address_writers_touch_only_own (b : book) (user : principal) (other : Z) :
  tidy b -> other <> uid user ->
  (forall body,
     owned other (addresses (snd (addUserAddress b user body))) =
     owned other (addresses b)) /\
  (forall id body,
     owned other (addresses (snd (updateUserAddress b user id body))) =
     owned other (addresses b)) /\
  (forall id,
     owned other (addresses (snd (deleteUserAddress b user id))) =
     owned other (addresses b)) /\
  (forall id a,
     find (fun a => addr_id a =? id) (addresses b) = Some a ->
     addr_userId a = other ->
     (forall body, updateUserAddress b user id body = (AddressNotFound, b)) /\
     deleteUserAddress b user id = (AddressNotFound, b)).
Proof.
  intros Ht Hne.
  assert (Hneb : (uid user =? other) = false) by (apply Z.eqb_neq; congruence).
  split; [|split; [|split]].
  - intros body. unfold addUserAddress, owned. simpl.
    rewrite filter_app. simpl. rewrite Hneb, app_nil_r.
    destruct (match add_isDefault body with Some v => v | None => false end);
      [|reflexivity].
    now apply owned_unset.
  - intros id body. unfold updateUserAddress.
    destruct (find _ (addresses b)) as [a|] eqn:Hf; [|reflexivity].
    destruct (update_rows b (uid user) id (upd_isDefault body) a Ht Hf)
      as (Hids & Hown & _ & row & Hrow & _).
    assert (Hsame : owned other
                      (match upd_isDefault body with
                       | Some true => unset_defaults (uid user) (addresses b)
                       | _ => addresses b
                       end) = owned other (addresses b)).
    { destruct (upd_isDefault body) as [[|]|]; try reflexivity.
      now apply owned_unset. }
    remember (match upd_isDefault body with
              | Some true => unset_defaults (uid user) (addresses b)
              | _ => addresses b
              end) as rows eqn:Hrows.
    rewrite Hrow. simpl. rewrite <- Hsame. apply filter_update_where.
    intros x Hx Hp. apply Z.eqb_eq in Hp. simpl.
    rewrite (Hown x Hx Hp). split; exact Hneb.
  - intros id. unfold deleteUserAddress.
    destruct (find _ (addresses b)) as [a|] eqn:Hf; [|reflexivity].
    destruct Ht as (Hnd & _ & _).
    destruct (found_own _ _ _ _ Hnd Hf) as (Hin & Hid & Hu & Hfid & Huniq).
    assert (Hdel : owned other (delete_where (fun a => addr_id a =? id) (addresses b)) =
                   owned other (addresses b)).
    { apply filter_delete_where. intros x Hx Hp. apply Z.eqb_eq in Hp.
      rewrite (Huniq x Hx Hp), Hu. exact Hneb. }
    destruct (isDefault a); simpl; [|exact Hdel].
    destruct (find (fun a => addr_userId a =? uid user) _)
      as [another|] eqn:Han; simpl; [|exact Hdel].
    rewrite <- Hdel. apply filter_update_where.
    intros x Hx Hp. apply Z.eqb_eq in Hp.
    apply find_some in Han. destruct Han as [Hain Hau]. apply Z.eqb_eq in Hau.
    assert (x = another).
    { apply (NoDup_key_eq addr_id
               (delete_where (fun a => addr_id a =? id) (addresses b))); auto.
      now apply NoDup_delete_where. }
    subst x. simpl. rewrite Hau. split; exact Hneb.
  - intros id a Hf Ha. destruct Ht as (Hnd & _ & _).
    assert (Hnone := not_own _ _ (uid user) _ Hnd Hf).
    split; [intros body|];
      unfold updateUserAddress, deleteUserAddress;
      rewrite Hnone by congruence; reflexivity.
Qed.

Lemma address_writers_touch_only_own_witness :
  owned 8 (addresses (snd (deleteUserAddress seeded OrderController.alice 1))) = [flat] /\
  deleteUserAddress seeded OrderController.alice 3 = (AddressNotFound, seeded).
Proof.
  assert (Hne : 8 <> uid OrderController.alice) by (simpl; lia).
  destruct (address_writers_touch_only_own seeded OrderController.alice 8
              seeded_tidy Hne) as (_ & _ & Hd & H404).
  split.
  - rewrite Hd. reflexivity.
  - apply (H404 3 flat); reflexivity.
Defined.

(** *** Which address is the default *)

(** Deleting the default address hands the default on: the user's book is
    then the old one without the deleted row, with its first remaining
    address marked as default, and that address is the user's only
    default.  When no address remains there is nothing to mark. *)
Theorem deleteUserAddress_hands_over_default (b : book) (user : principal) (id : Z)
    (a : address) :
  tidy b ->
  find (fun a => (addr_id a =? id) && (addr_userId a =? uid user))
       (addresses b) = Some a ->
  isDefault a = true ->
  let after := addresses (snd (deleteUserAddress b user id)) in
  match delete_where (fun x => addr_id x =? id) (owned (uid user) (addresses b)) with
  | [] => owned (uid user) after = []
  | first :: rest =>
      owned (uid user) after = with_isDefault true first :: rest /\
      defaults (uid user) after = [with_isDefault true first]
  end.
Proof.
  intros Ht Hf Hd. unfold deleteUserAddress. rewrite Hf, Hd. simpl.
  destruct Ht as (Hnd & Hlt & Hone).
  destruct (found_own _ _ _ _ Hnd Hf) as (Hin & Hid & Hu & Hfid & Huniq).
  remember (delete_where (fun a => addr_id a =? id) (addresses b)) as rows1.
  assert (Hnd1 : NoDup (map addr_id rows1))
    by (subst; now apply NoDup_delete_where).
  assert (Hown1 : owned (uid user) rows1 =
                  delete_where (fun x => addr_id x =? id)
                               (owned (uid user) (addresses b))).
  { subst rows1. apply filter_delete_where_comm. intros x Hx Hp.
    apply Z.eqb_eq in Hp. rewrite (Huniq x Hx Hp), Hu. apply Z.eqb_refl. }
  assert (Hzero : defaults (uid user) rows1 = []).
  { apply length_0_nil.
    assert (Hs : S (List.length (defaults (uid user) rows1)) =
                 List.length (defaults (uid user) (addresses b))).
    { subst rows1. apply (count_delete_where_found _ _ _ a Hfid).
      simpl. now rewrite Hu, Z.eqb_refl, Hd. }
    specialize (Hone (uid user)). lia. }
  rewrite <- Hown1. rewrite find_hd_filter. fold (owned (uid user) rows1).
  destruct (owned (uid user) rows1) as [| first rest] eqn:Hown; simpl.
  - exact Hown.
  - assert (Hfirst : In first rows1 /\ addr_userId first = uid user).
    { assert (Hin1 : In first (owned (uid user) rows1))
        by (rewrite Hown; now left).
      apply filter_In in Hin1. destruct Hin1 as [H1 H2].
      apply Z.eqb_eq in H2. auto. }
    destruct Hfirst as [Hfin Hfu].
    assert (Hnew : owned (uid user)
                     (update_where (fun a0 => addr_id a0 =? addr_id first)
                                   (with_isDefault true) rows1) =
                   with_isDefault true first :: rest).
    { unfold owned. rewrite filter_update_where_comm.
      - fold (owned (uid user) rows1). rewrite Hown. simpl.
        now rewrite Z.eqb_refl.
      - reflexivity.
      - intros x Hx Hp. apply Z.eqb_eq in Hp.
        rewrite (NoDup_key_eq addr_id rows1 x first Hnd1 Hx Hfin Hp), Hfu.
        apply Z.eqb_refl. }
    split; [exact Hnew|].
    unfold defaults. rewrite filter_and. fold (owned (uid user)
      (update_where (fun a0 => addr_id a0 =? addr_id first)
                    (with_isDefault true) rows1)).
    rewrite Hnew. simpl. f_equal.
    unfold defaults in Hzero. rewrite filter_and in Hzero.
    fold (owned (uid user) rows1) in Hzero. rewrite Hown in Hzero.
    simpl in Hzero. destruct (isDefault first); [discriminate | exact Hzero].
Qed.

Lemma deleteUserAddress_hands_over_default_witness :
  owned 7 (addresses (snd (deleteUserAddress seeded OrderController.alice 1))) =
    [with_isDefault true home] /\
  defaults 7 (addresses (snd (deleteUserAddress seeded OrderController.alice 1))) =
    [with_isDefault true home].
Proof.
  exact (deleteUserAddress_hands_over_default seeded OrderController.alice 1 office
           seeded_tidy eq_refl eq_refl).
Defined.

(** An address written with [isDefault: true] is the user's one default
    afterwards: the new row after an add, the updated row after an update
    of one of the user's addresses, whatever was the default before. *)
Theorem written_default_is_the_only_default (b : book) (user : principal) :
  tidy b ->
  (forall body,
     add_isDefault body = Some true ->
     exists newAddress,
       fst (addUserAddress b user body) =
         Sent 201 "Address added successfully" newAddress /\
       defaults (uid user) (addresses (snd (addUserAddress b user body))) =
         [newAddress]) /\
  (forall id body a,
     upd_isDefault body = Some true ->
     find (fun a => (addr_id a =? id) && (addr_userId a =? uid user))
          (addresses b) = Some a ->
     fst (updateUserAddress b user id body) =
       Sent 200 "Address updated successfully" (updateData body a) /\
     defaults (uid user) (addresses (snd (updateUserAddress b user id body))) =
       [updateData body a]).
Proof.
  intros Ht. split.
  - intros body Hb. unfold addUserAddress. rewrite Hb. simpl.
    eexists. split; [reflexivity|].
    unfold defaults. rewrite filter_app. fold (defaults (uid user)
      (unset_defaults (uid user) (addresses b))).
    rewrite defaults_unset. simpl. now rewrite Z.eqb_refl.
  - intros id body a Hb Hf.
    destruct (update_rows b (uid user) id (Some true) a Ht Hf)
      as (Hids & Hown & Hcount & row & Hrow & Hru & Hdata).
    unfold updateUserAddress. rewrite Hf, Hb, Hrow. simpl.
    rewrite (Hdata body Hb) by discriminate.
    split; [reflexivity|].
    apply only_member.
    + apply filter_In. split.
      * rewrite <- (Hdata body Hb) by discriminate.
        now apply In_update_where_found.
      * simpl. rewrite Hb. destruct Ht as (Hnd & _ & _).
        destruct (found_own _ _ _ _ Hnd Hf) as (_ & _ & Hu & _).
        now rewrite Hu, Z.eqb_refl.
    + eapply Nat.le_trans; [apply count_update_where_S|].
      fold (defaults (uid user) (unset_defaults (uid user) (addresses b))).
      rewrite defaults_unset. simpl. lia.
Qed.

Lemma written_default_is_the_only_default_witness :
  defaults 7 (addresses (snd (updateUserAddress seeded OrderController.alice 2
                                make_default))) =
  [updateData make_default home].
Proof.
  destruct (written_default_is_the_only_default seeded OrderController.alice
              seeded_tidy) as [_ Hu].
  apply (Hu 2 make_default home); reflexivity.
Defined.

End Addresses.
